(** * fb-backend: the posting and session-validation endpoints of src/server.js

    A shallow embedding of the two request handlers [app.post('/api/validate')]
    and [app.post('/api/share')] of src/server.js, with the JavaScript values,
    numbers and strings they handle, and the browser (Puppeteer) as an external
    world answering each call. *)

From Stdlib Require Import List Bool ZArith Lia String Ascii.
From Stdlib Require Decimal DecimalNat.
Import ListNotations.
Open Scope Z_scope.

(** ** JavaScript strings

    A JavaScript string is a sequence of UTF-16 code units. *)
Definition jsstr := list N.

(** A string literal of the source, written with Rocq's ASCII literals. *)
Definition js (s : string) : jsstr := map N_of_ascii (list_ascii_of_string s).

Definition jsstr_eqb (a b : jsstr) : bool :=
  if list_eq_dec N.eq_dec a b then true else false.

(** WhiteSpace and LineTerminator code units (ECMA-262 12.2, 12.3): the
    characters [String.prototype.trim] and [parseInt] skip. *)
Definition is_js_space (c : N) : bool :=
  match c with
  | 9%N | 10%N | 11%N | 12%N | 13%N | 32%N | 160%N | 5760%N
  | 8232%N | 8233%N | 8239%N | 8287%N | 12288%N | 65279%N => true
  | _ => (8192 <=? c)%N && (c <=? 8202)%N
  end.

Fixpoint trim_start (s : jsstr) : jsstr :=
  match s with
  | c :: t => if is_js_space c then trim_start t else s
  | [] => []
  end.

(** [String.prototype.trim]. *)
Definition js_trim (s : jsstr) : jsstr := rev (trim_start (rev (trim_start s))).

(** Decimal digits of a natural number, as [Number.prototype.toString] and
    template literals print it. *)
Fixpoint uint_digits (d : Decimal.uint) : jsstr :=
  match d with
  | Decimal.Nil => []
  | Decimal.D0 d => 48%N :: uint_digits d | Decimal.D1 d => 49%N :: uint_digits d
  | Decimal.D2 d => 50%N :: uint_digits d | Decimal.D3 d => 51%N :: uint_digits d
  | Decimal.D4 d => 52%N :: uint_digits d | Decimal.D5 d => 53%N :: uint_digits d
  | Decimal.D6 d => 54%N :: uint_digits d | Decimal.D7 d => 55%N :: uint_digits d
  | Decimal.D8 d => 56%N :: uint_digits d | Decimal.D9 d => 57%N :: uint_digits d
  end.

Definition nat_to_jsstr (n : nat) : jsstr := uint_digits (Nat.to_uint n).

(** ** JSON values of a request body

    [express.json()] turns the request body into JavaScript values.  A number
    is held as the string [Number.prototype.toString] gives for it: the
    handlers only observe a number through [parseInt] (which converts it to
    that string first) and through its truthiness. *)
#[warnings="-register-all"]
Inductive jsval : Type :=
| JUndef
| JNull
| JBool (b : bool)
| JNum (repr : jsstr)
| JStr (s : jsstr)
| JArr (elems : list jsval)
| JObj (fields : list (jsstr * jsval)).

(** JavaScript truthiness ([!v] is [negb (truthy v)]). *)
Definition truthy (v : jsval) : bool :=
  match v with
  | JUndef | JNull => false
  | JBool b => b
  | JNum r => negb (jsstr_eqb r (js "0"))
  | JStr s => match s with [] => false | _ => true end
  | JArr _ | JObj _ => true
  end.

Definition is_array (v : jsval) : bool :=
  match v with JArr _ => true | _ => false end.

(** [ToString], as [parseInt] applies it to its argument ([None]: it
    throws).  An array is converted with [Array.prototype.join(',')], where
    null and undefined elements become empty strings.  An object is converted
    by its [toString] method: [Object.prototype.toString] gives
    ["[object Object]"], but a parsed object with an own [toString] key
    holds a value that is not callable there, and [valueOf] returns the
    object itself, so [ToPrimitive] throws a [TypeError] (ECMA-262 7.1.1.1). *)
Fixpoint to_string (v : jsval) : option jsstr :=
  match v with
  | JUndef => Some (js "undefined")
  | JNull => Some (js "null")
  | JBool true => Some (js "true")
  | JBool false => Some (js "false")
  | JNum r => Some r
  | JStr s => Some s
  | JArr l =>
      (fix join (l : list jsval) : option jsstr :=
         match l with
         | [] => Some []
         | x :: t =>
             match (match x with JUndef | JNull => Some [] | _ => to_string x end) with
             | None => None
             | Some a =>
                 match t with
                 | [] => Some a
                 | _ => match join t with
                        | None => None
                        | Some b => Some (a ++ 44%N :: b)
                        end
                 end
             end
         end) l
  | JObj fs =>
      if existsb (fun kv => jsstr_eqb (fst kv) (js "toString")) fs then None
      else Some (js "[object Object]")
  end.

(** The message of that [TypeError] (V8). *)
Definition cannot_convert : jsstr := js "Cannot convert object to primitive value".

(** Own property lookup [o[k]] on a parsed JSON value: only objects have
    named properties here ([name] and [value] are not properties of strings,
    numbers, booleans or arrays). *)
Fixpoint assoc (k : jsstr) (fs : list (jsstr * jsval)) : jsval :=
  match fs with
  | [] => JUndef
  | (k', v) :: t => if jsstr_eqb k k' then v else assoc k t
  end.

Definition get_prop (v : jsval) (k : jsstr) : jsval :=
  match v with JObj fs => assoc k fs | _ => JUndef end.

(** ** JavaScript numbers, as far as the handlers compute with them

    [parseInt] only yields integers, NaN or an infinity; [Int z] is the
    Number nearest to the integer [z] (for the comparisons with 1, 5, 10 and
    60 the code makes, rounding to a double changes nothing: the bounds are
    doubles and rounding is monotone). *)
Inductive num : Type :=
| NaN
| PInf
| NInf
| Int (z : Z).

(** The Number value for an integer (ECMA-262 6.1.6.1): from 2^1024 - 2^970
    on, the nearest value is an infinity. *)
Definition num_of_Z (z : Z) : num :=
  if (2 ^ 1024 - 2 ^ 970) <=? z then PInf
  else if z <=? - (2 ^ 1024 - 2 ^ 970) then NInf
  else Int z.

Definition js_max (x y : num) : num :=
  match x, y with
  | NaN, _ | _, NaN => NaN
  | PInf, _ | _, PInf => PInf
  | NInf, v | v, NInf => v
  | Int a, Int b => Int (Z.max a b)
  end.

Definition js_min (x y : num) : num :=
  match x, y with
  | NaN, _ | _, NaN => NaN
  | NInf, _ | _, NInf => NInf
  | PInf, v | v, PInf => v
  | Int a, Int b => Int (Z.min a b)
  end.

(** [x < y] on Numbers. *)
Definition js_lt (x y : num) : bool :=
  match x, y with
  | NaN, _ | _, NaN => false
  | Int a, Int b => a <? b
  | NInf, NInf | PInf, _ => false
  | NInf, _ | _, PInf => true
  | Int _, NInf => false
  end.

(** [x - k] and [x * k] for a positive integer constant [k]. *)
Definition js_sub_int (x : num) (k : Z) : num :=
  match x with Int a => Int (a - k) | v => v end.

Definition js_mul_int (x : num) (k : Z) : num :=
  match x with Int a => Int (a * k) | v => v end.

(** ** [parseInt(v)] with no radix (ECMA-262 19.2.5) *)

Definition digit_value (c : N) : Z :=
  if ((48 <=? c) && (c <=? 57))%N then Z.of_N c - 48
  else if ((97 <=? c) && (c <=? 122))%N then Z.of_N c - 87
  else if ((65 <=? c) && (c <=? 90))%N then Z.of_N c - 55
  else 36.

(** The longest prefix of radix-[r] digits: its value and its length. *)
Fixpoint take_digits (r : Z) (s : jsstr) (acc : Z) (len : nat) : Z * nat :=
  match s with
  | c :: t =>
      if digit_value c <? r then take_digits r t (acc * r + digit_value c) (S len)
      else (acc, len)
  | [] => (acc, len)
  end.

Definition parse_int_string (input : jsstr) : num :=
  let s := trim_start input in
  let '(sign, s) :=
    match s with
    | 45%N :: t => (-1, t)
    | 43%N :: t => (1, t)
    | _ => (1, s)
    end in
  let '(r, s) :=
    match s with
    | 48%N :: 120%N :: t | 48%N :: 88%N :: t => (16, t)
    | _ => (10, s)
    end in
  let '(v, len) := take_digits r s 0 O in
  match len with
  | O => NaN
  | _ => num_of_Z (sign * v)
  end.

(** [None]: the conversion of the argument to a string throws. *)
Definition parseInt (v : jsval) : option num := option_map parse_int_string (to_string v).

(** [Math.min(Math.max(parseInt(x), lo), hi)], server.js lines 160-161. *)
Definition clamp (x : jsval) (lo hi : Z) : option num :=
  option_map (fun n => js_min (js_max n (Int lo)) (Int hi)) (parseInt x).

(** ** Responses *)

(** An entry of the [results] array of [/api/share]: the object literals of
    lines 238-243 and 257-262. *)
Inductive attempt_record : Type :=
| Success (attempt : nat) (timestamp message : jsstr)
| Failure (attempt : nat) (error timestamp : jsstr).

Definition rec_attempt (r : attempt_record) : nat :=
  match r with Success k _ _ | Failure k _ _ => k end.

(** The [success] field, read by [r => r.success] at lines 272-273. *)
Definition rec_success (r : attempt_record) : bool :=
  match r with Success _ _ _ => true | Failure _ _ _ => false end.

Record summary : Type := mkSummary {
  total : num;
  successful : nat;
  failed : nat;
  successRate : num
}.

(** The objects handed to [res.json]: the [{success:false, error}] envelope,
    the posting report of lines 277-286, the session report of lines
    109-114 and the [{success:true, message}] report of lines 326-329. *)
Inductive body : Type :=
| ErrBody (error : jsstr)
| ShareBody (results : list attempt_record) (sm : summary)
| ValidBody (message : jsstr) (user userId : jsval)
| MsgBody (message : jsstr).

(** [Math.round((successful / total) * 100)] (line 284).  [Math.round(x)] is
    [floor(x + 1/2)], here [floor((200 s + c) / (2 c))]; for [s <= 10] and a
    total in 1..10 the double arithmetic gives the exact quotient's result
    (the only half-way quotients, [s/8] for odd [s], are exact doubles). *)
Definition success_rate (s : nat) (t : num) : num :=
  match t with
  | NaN => NaN
  | PInf | NInf => Int 0
  | Int c =>
      if c =? 0 then (if Nat.eqb s 0 then NaN else PInf)
      else Int ((200 * Z.of_nat s + c) / (2 * c))
  end.

(** ** The browser as an external world *)

(** The functions the handlers run in the page with [page.evaluate]
    (lines 91-98, 102-105, 202-204 and 233-235). *)
Inductive page_fn : Type :=
| LoginLandmarks
| ProfileLabel
| CreatePostPresent
| CreatePostGone.

(** A selector [\[aria-label="l"\]] is given by its label [l]; [present l]
    tells whether [document.querySelector] finds an element with it. *)
Definition run_page_fn (f : page_fn) (present : jsstr -> bool) : jsval :=
  match f with
  | LoginLandmarks =>
      JBool (present (js "Create a post") || present (js "Messenger")
             || present (js "Notifications"))
  | ProfileLabel =>
      if present (js "Your profile") then JStr (js "Your profile")
      else JStr (js "Facebook User")
  | CreatePostPresent => JBool (present (js "Create a post"))
  | CreatePostGone => JBool (negb (present (js "Create a post")))
  end.

(** The awaited calls to Puppeteer: [puppeteer.launch], [browser.newPage],
    [browser.close] and the [page] methods other than [waitForTimeout]. *)
Inductive op : Type :=
| Launch
| NewPage
| SetViewport (width height : Z)
| SetUserAgent (ua : jsstr)
| SetCookie (cookies : list jsval)
| Goto (url : jsstr)
| Evaluate (f : page_fn)
| Click (label : jsstr)
| KeyboardType (text : jsval)
| Close.

(** What the outside world sees of a run, in order: each browser call (its
    sequence number, the call, and [Some m] when it rejected with an
    [Error] of message [m]), each [page.waitForTimeout(ms)], and the response
    sent with [res.status(st).json(b)] ([res.json(b)] is status 200). *)
Inductive event : Type :=
| ECall (n : nat) (o : op) (rejected : option jsstr)
| ESleep (ms : num)
| ERespond (status : Z) (b : body).

(** The world: whether the [n]-th browser call of the run rejects (and with
    which message), which aria-labels the page shows when the [n]-th call is
    a [page.evaluate], and what [new Date().toISOString()] reads after [n]
    browser calls. *)
Record Env : Type := mkEnv {
  reject : nat -> op -> option jsstr;
  dom : nat -> jsstr -> bool;
  clock : nat -> jsstr
}.

(** ** Async JavaScript as a state and completion monad

    A statement completes normally, throws an [Error] (of which the handlers
    only read [.message]), or returns from the handler.  The state holds the
    handler's mutable locals [browser] and [results], the browser-call
    counter and the trace. *)
Inductive completion (A : Type) : Type :=
| Normal (a : A)
| Throw (m : jsstr)
| Return.
Arguments Normal {A} a.
Arguments Throw {A} m.
Arguments Return {A}.

Record St : Type := mkSt {
  ncalls : nat;
  trace : list event;
  results : list attempt_record;
  browser : bool
}.

Definition M (A : Type) : Type := St -> completion A * St.

Definition ret {A} (a : A) : M A := fun s => (Normal a, s).

Definition bind {A B} (m : M A) (k : A -> M B) : M B :=
  fun s =>
    match m s with
    | (Normal a, s') => k a s'
    | (Throw e, s') => (Throw e, s')
    | (Return, s') => (Return, s')
    end.

Notation "x <- m ;; k" := (bind m (fun x => k))
  (at level 61, m at next level, right associativity).
Notation "m ;; k" := (bind m (fun _ => k)) (at level 61, right associativity).

(** [throw new Error(m)]. *)
Definition throw {A} (m : jsstr) : M A := fun s => (Throw m, s).

(** [return] out of the handler. *)
Definition early_return {A} : M A := fun s => (Return, s).

(** [try { p } catch (e) { h(e.message) }]. *)
Definition try_catch {A} (p : M A) (h : jsstr -> M A) : M A :=
  fun s =>
    match p s with
    | (Throw e, s') => h e s'
    | r => r
    end.

(** [try { p } finally { f }]: a throw from [f] replaces [p]'s completion. *)
Definition try_finally {A} (p : M A) (f : M unit) : M A :=
  fun s =>
    let '(c, s1) := p s in
    match f s1 with
    | (Normal _, s2) => (c, s2)
    | (Throw e, s2) => (Throw e, s2)
    | (Return, s2) => (Return, s2)
    end.

Definition emit (e : event) : M unit :=
  fun s => (Normal tt, mkSt (ncalls s) (trace s ++ [e]) (results s) (browser s)).

Definition set_browser : M unit :=
  fun s => (Normal tt, mkSt (ncalls s) (trace s) (results s) true).

Definition get_browser : M bool := fun s => (Normal (browser s), s).

(** [results.push(r)]. *)
Definition push (r : attempt_record) : M unit :=
  fun s => (Normal tt, mkSt (ncalls s) (trace s) (results s ++ [r]) (browser s)).

Definition get_results : M (list attempt_record) := fun s => (Normal (results s), s).

Definition respond (status : Z) (b : body) : M unit := emit (ERespond status b).

(** [page.waitForTimeout(ms)]: Puppeteer's [new Promise(r => setTimeout(r, ms))],
    which resolves and never rejects.  This assumes a Puppeteer release that
    still has the method (it was removed in version 22); the version in use is
    not part of these sources. *)
Definition sleep (ms : num) : M unit := emit (ESleep ms).

(** [TypeError]s the handlers can raise on malformed bodies (V8 messages). *)
Definition not_a_function (callee : string) : jsstr :=
  js callee ++ js " is not a function".

(** Reading a property of [null] or [undefined]. *)
Definition cannot_read (v : jsval) (prop : string) : jsstr :=
  js "Cannot read properties of "
    ++ (match v with JNull => js "null" | _ => js "undefined" end) ++ js " (reading '"
    ++ js prop ++ js "')".

(** [v.trim()] on a value the code expects to be a string. *)
Definition trim_method (v : jsval) (callee : string) : M jsstr :=
  match v with
  | JStr s => ret (js_trim s)
  | _ => throw (not_a_function callee)
  end.

(** A value computed by code that may throw [m]. *)
Definition or_throw {A} (r : option A) (m : jsstr) : M A :=
  match r with Some a => ret a | None => throw m end.

(** [arr.find(c => c.name === name)]. *)
Fixpoint find_name (l : list jsval) (name : jsstr) : M jsval :=
  match l with
  | [] => ret JUndef
  | c :: t =>
      match c with
      | JUndef | JNull => throw (cannot_read c "name")
      | _ =>
          match get_prop c (js "name") with
          | JStr n => if jsstr_eqb n name then ret c else find_name t name
          | _ => find_name t name
          end
      end
  end.

Section Handlers.

Variable env : Env.

(** An awaited browser call. *)
Definition call (o : op) : M unit :=
  fun s =>
    let n := ncalls s in
    let s' := mkSt (S n) (trace s ++ [ECall n o (reject env n o)]) (results s) (browser s) in
    match reject env n o with
    | Some m => (Throw m, s')
    | None => (Normal tt, s')
    end.

(** [await page.evaluate(f)]. *)
Definition evaluate (f : page_fn) : M jsval :=
  fun s =>
    let n := ncalls s in
    match call (Evaluate f) s with
    | (Normal _, s') => (Normal (run_page_fn f (dom env n)), s')
    | (Throw e, s') => (Throw e, s')
    | (Return, s') => (Return, s')
    end.

(** [new Date().toISOString()]. *)
Definition now : M jsstr := fun s => (Normal (clock env (ncalls s)), s).


(** A request body, [req.body]; an absent field is [JUndef]. *)
Record request : Type := mkRequest {
  appstate : jsval;
  message : jsval;
  link : jsval;
  count : jsval;
  delay : jsval
}.

Definition facebook_url : jsstr := js "https://facebook.com".

Definition user_agent : jsstr :=
  js "Mozilla/5.0 (Windows NT 10.0; Win64; x64) AppleWebKit/537.36 (KHTML, like Gecko) Chrome/91.0.4472.124 Safari/537.36".

(** The elements of an array ([...appstate]). *)
Definition elements (v : jsval) : list jsval :=
  match v with JArr l => l | _ => [] end.

(** ** [app.post('/api/validate')], lines 32-135 *)
Definition validate (req : request) : M unit :=
  try_finally
    (try_catch
       (let appstate := appstate req in
        if negb (truthy appstate) || negb (is_array appstate) then
          respond 400 (ErrBody (js "Invalid AppState format. Must be an array of cookies."));;
          early_return
        else
          c_user <- find_name (elements appstate) (js "c_user");;
          xs <- find_name (elements appstate) (js "xs");;
          if negb (truthy c_user) || negb (truthy xs) then
            respond 400 (ErrBody (js "Missing required cookies: c_user or xs"));;
            early_return
          else
            call Launch;;
            set_browser;;
            call NewPage;;
            call (SetViewport 1280 720);;
            call (SetUserAgent user_agent);;
            call (SetCookie (elements appstate));;
            call (Goto facebook_url);;
            isLoggedIn <- evaluate LoginLandmarks;;
            if truthy isLoggedIn then
              userInfo <- evaluate ProfileLabel;;
              respond 200 (ValidBody (js "Session is valid and ready for automation")
                             userInfo (get_prop c_user (js "value")))
            else
              respond 401 (ErrBody (js "Invalid session - unable to login with provided cookies")))
       (fun m => respond 500 (ErrBody (js "Validation failed: " ++ m))))
    (b <- get_browser;; if b then call Close else ret tt).

(** ** [app.post('/api/share')], lines 138-299 *)

(** [link && link.trim()] (line 219), as a condition. *)
Definition link_given (link : jsval) : M bool :=
  if negb (truthy link) then ret false
  else t <- trim_method link "link.trim";;
       ret (match t with [] => false | _ => true end).

(** The wait at the end of an attempt, lines 250-253 and 265-267. *)
Definition between_posts (shareCount shareDelay : num) (i : nat) : M unit :=
  if js_lt (Int (Z.of_nat i)) (js_sub_int shareCount 1)
  then sleep (js_mul_int shareDelay 1000)
  else ret tt.

(** The [try] block of one iteration, lines 189-253. *)
Definition attempt_try (message link : jsval) (shareCount shareDelay : num) (i : nat)
  : M unit :=
  call (Goto facebook_url);;
  sleep (Int 2000);;
  isLoggedIn <- evaluate CreatePostPresent;;
  (if negb (truthy isLoggedIn)
   then throw (js "Session expired during automation") else ret tt);;
  call (Click (js "Create a post"));;
  sleep (Int 1000);;
  call (KeyboardType message);;
  sleep (Int 1000);;
  has_link <- link_given link;;
  (if has_link then
     call (Click (js "Add to your post"));;
     sleep (Int 1000);;
     call (KeyboardType link);;
     sleep (Int 1000)
   else ret tt);;
  call (Click (js "Post"));;
  sleep (Int 5000);;
  postSuccess <- evaluate CreatePostGone;;
  (if truthy postSuccess then
     ts <- now;;
     push (Success (S i) ts (js "Successfully shared post " ++ nat_to_jsstr (S i)))
   else throw (js "Post may not have been published"));;
  between_posts shareCount shareDelay i.

(** The [catch (attemptError)] block, lines 255-268. *)
Definition attempt_catch (shareCount shareDelay : num) (i : nat) (m : jsstr) : M unit :=
  ts <- now;;
  push (Failure (S i) m ts);;
  between_posts shareCount shareDelay i.

(** One iteration of the attempt loop. *)
Definition attempt (message link : jsval) (shareCount shareDelay : num) (i : nat)
  : M unit :=
  try_catch (attempt_try message link shareCount shareDelay i)
            (attempt_catch shareCount shareDelay i).

(** How often [for (let i = 0; i < shareCount; i++)] (line 188) runs its body:
    [i < NaN] and [i < -Infinity] never hold.  +Infinity cannot reach the
    loop, since [Math.min(_, 10)] is applied first ([clamp_not_pinf]). *)
Definition trip_count (n : num) : nat :=
  match n with Int c => Z.to_nat c | _ => O end.

(** Iterations [i], [i+1], ... of the loop, [n] of them. *)
Fixpoint share_loop (message link : jsval) (shareCount shareDelay : num) (n i : nat)
  : M unit :=
  match n with
  | O => ret tt
  | S n' =>
      attempt message link shareCount shareDelay i;;
      share_loop message link shareCount shareDelay n' (S i)
  end.

(** The destructuring defaults [count = 1, delay = 15] (line 141). *)
Definition default (v d : jsval) : jsval :=
  match v with JUndef => d | _ => v end.

(** The values of lines 160-161 ([None]: [parseInt] throws). *)
Definition shareCount (req : request) : option num :=
  clamp (default (count req) (JNum (js "1"))) 1 10.
Definition shareDelay (req : request) : option num :=
  clamp (default (delay req) (JNum (js "15"))) 5 60.

Definition share (req : request) : M unit :=
  try_finally
    (try_catch
       (let appstate := appstate req in
        let message := message req in
        if negb (truthy appstate) || negb (is_array appstate) then
          respond 400 (ErrBody (js "Invalid AppState format"));;
          early_return
        else
          (if negb (truthy message) then
             respond 400 (ErrBody (js "Message is required"));; early_return
           else
             t <- trim_method message "message.trim";;
             match t with
             | [] => respond 400 (ErrBody (js "Message is required"));; early_return
             | _ => ret tt
             end);;
          shareCount <- or_throw (shareCount req) cannot_convert;;
          shareDelay <- or_throw (shareDelay req) cannot_convert;;
          call Launch;;
          set_browser;;
          call NewPage;;
          call (SetViewport 1280 720);;
          call (SetUserAgent user_agent);;
          call (SetCookie (elements appstate));;
          share_loop message (link req) shareCount shareDelay (trip_count shareCount) 0;;
          rs <- get_results;;
          let successful := List.length (filter rec_success rs) in
          let failed := List.length (filter (fun r => negb (rec_success r)) rs) in
          respond 200 (ShareBody rs (mkSummary shareCount successful failed
                                                (success_rate successful shareCount))))
       (fun m => respond 500 (ErrBody (js "Sharing failed: " ++ m))))
    (b <- get_browser;; if b then call Close else ret tt).

End Handlers.

(** ** [app.post('/api/share-story')], lines 302-339 *)

(** The code points of a string, each as a string: the values [...s] spreads
    a string into (a high surrogate followed by a low one is one code point). *)
Definition is_high_surrogate (c : N) : bool := ((55296 <=? c) && (c <=? 56319))%N.
Definition is_low_surrogate (c : N) : bool := ((56320 <=? c) && (c <=? 57343))%N.

Fixpoint code_points (s : jsstr) : list jsstr :=
  match s with
  | [] => []
  | h :: t =>
      if is_high_surrogate h then
        match t with
        | l :: t' => if is_low_surrogate l then [h; l] :: code_points t'
                     else [h] :: code_points t
        | [] => [[h]]
        end
      else [h] :: code_points t
  end.

Section Story.

Variable env : Env.

(** The message of the [TypeError] the engine raises for [f(...v)] when [v]
    is not iterable; its wording depends on the engine's version. *)
Variable spread_error : jsval -> jsstr.

(** The argument list of [f(...v)] for a parsed JSON value [v]: arrays and
    strings are iterable, other values are not. *)
Definition spread (v : jsval) : M (list jsval) :=
  match v with
  | JArr l => ret l
  | JStr s => ret (map JStr (code_points s))
  | _ => throw (spread_error v)
  end.

Definition story_message : jsstr :=
  js "Story sharing endpoint - implementation may need adjustment based on Facebook UI".

Definition share_story (req : request) : M unit :=
  try_finally
    (try_catch
       (if negb (truthy (appstate req)) || negb (truthy (message req)) then
          respond 400 (ErrBody (js "AppState and message are required"));;
          early_return
        else
          call env Launch;;
          set_browser;;
          call env NewPage;;
          cookies <- spread (appstate req);;
          call env (SetCookie cookies);;
          call env (Goto facebook_url);;
          respond 200 (MsgBody story_message))
       (fun m => respond 500 (ErrBody m)))
    (b <- get_browser;; if b then call env Close else ret tt).

End Story.

(** A request starts with no browser, no results and no call made. *)
Definition st0 : St := mkSt O [] [] false.

Definition run_validate (env : Env) (req : request) : St := snd (validate env req st0).
Definition run_share (env : Env) (req : request) : St := snd (share env req st0).
Definition run_share_story (env : Env) (spread_error : jsval -> jsstr) (req : request) : St :=
  snd (share_story env spread_error req st0).

(** ** Observations on traces *)

(** Events an attempt may produce: page calls and waits. *)
Definition page_event (e : event) : bool :=
  match e with
  | ECall _ (Goto _ | Evaluate _ | Click _ | KeyboardType _) _ => true
  | ESleep _ => true
  | _ => false
  end.

Definition is_goto (e : event) : bool :=
  match e with ECall _ (Goto _) _ => true | _ => false end.

(** Every navigation after the first comes right after a wait of [d]: the
    events before it end with [ESleep d]. *)
Definition delay_before_goto (d : num) (tr : list event) : Prop :=
  forall tr1 k u e tr2,
    tr = tr1 ++ ECall k (Goto u) e :: tr2 -> filter is_goto tr1 <> [] ->
    exists tr0, tr1 = tr0 ++ [ESleep d].

Definition is_launch_ok (e : event) : bool :=
  match e with ECall _ Launch None => true | _ => false end.

Definition is_close (e : event) : bool :=
  match e with ECall _ Close _ => true | _ => false end.

Definition is_respond (e : event) : bool :=
  match e with ERespond _ _ => true | _ => false end.

(** The browser session was acquired: [puppeteer.launch] resolved. *)
Definition acquired (tr : list event) : bool := existsb is_launch_ok tr.

Definition compose_label : jsstr := js "Create a post".

(** Neither a response nor a release of the browser. *)
Definition quiet (e : event) : bool := negb (is_respond e) && negb (is_close e).

(** The three outcomes of a request's trace: everything before the single
    response is [quiet], and after it comes the [browser.close()] call exactly
    when the browser was acquired. *)
Definition responds_then_releases (tr : list event) : Prop :=
  exists pre st b post,
    tr = pre ++ [ERespond st b] ++ post /\ forallb quiet pre = true /\
    ((acquired pre = true /\ exists n r, post = [ECall n Close r]) \/
     (acquired pre = false /\ post = [])).

(** The response a trace sent: its first [res.status(st).json(b)]. *)
Fixpoint response_of (tr : list event) : option (Z * body) :=
  match tr with
  | [] => None
  | ERespond st b :: _ => Some (st, b)
  | _ :: t => response_of t
  end.

(** The browser was released before the response was sent: every
    [browser.close()] call comes before every response in the trace. *)
Definition released_before_response (tr : list event) : Prop :=
  forall i j e1 e2, nth_error tr i = Some e1 -> is_close e1 = true ->
    nth_error tr j = Some e2 -> is_respond e2 = true -> (i < j)%nat.

(** A cookie entry whose [.name] can be read. *)
Definition nonnull (v : jsval) : bool :=
  match v with JUndef | JNull => false | _ => true end.

(** Some entry of the cookie array is named [name]. *)
Definition has_cookie (l : list jsval) (name : jsstr) : bool :=
  existsb (fun c => match get_prop c (js "name") with
                    | JStr n => jsstr_eqb n name
                    | _ => false
                    end) l.

(** Calls that act on the page for the user: clicks and typing. *)
Definition posts (o : op) : bool :=
  match o with Click _ | KeyboardType _ => true | _ => false end.

(** Calls that read the page. *)
Definition inspects (o : op) : bool :=
  match o with Evaluate _ => true | _ => false end.

(** The click on the [Post] button, which publishes. *)
Definition submits (o : op) : bool :=
  match o with Click l => jsstr_eqb l (js "Post") | _ => false end.

(** The calls of [/api/share-story]: [launch], [newPage], [setCookie], a
    [goto] of the Facebook page and [close]. *)
Definition story_calls (o : op) : bool :=
  match o with
  | Launch | NewPage | SetCookie _ | Close => true
  | Goto u => jsstr_eqb u facebook_url
  | _ => false
  end.

(** No browser call of the trace is one of [p]. *)
Definition calls_none (p : op -> bool) (tr : list event) : bool :=
  forallb (fun e => match e with ECall _ o _ => negb (p o) | _ => true end) tr.

(** The decimal text of an integer, as JSON and [Number.prototype.toString]
    write an integer below 10^21 in magnitude. *)
Definition int_repr (z : Z) : jsstr :=
  if z <? 0 then 45%N :: nat_to_jsstr (Z.to_nat (- z)) else nat_to_jsstr (Z.to_nat z).

(** [v] is the decimal text of the integer [k]: a string, or a JSON number
    that [Number.prototype.toString] prints in that form (from 10^21 on it
    switches to exponent notation). *)
Definition int_text (v : jsval) (k : Z) : Prop :=
  v = JStr (int_repr k) \/ (v = JNum (int_repr k) /\ Z.abs k < 10 ^ 21).

(** ** Concrete worlds and requests *)

(** A page on which every call resolves, the compose button is shown when a
    page has just been loaded and gone after a post.  With no link, each
    attempt makes six calls after the five set-up calls of [/api/share], so
    the login check of attempt [i] is call [6 + 6 i] and the post check is
    call [10 + 6 i]. *)
Definition env_ok : Env :=
  mkEnv (fun _ _ => None) (fun n _ => Nat.eqb (Nat.modulo n 6) 0) (fun _ => js "2026-01-01T00:00:00.000Z").

(** The same page, with the compose button still shown after every post. *)
Definition env_unpublished : Env :=
  mkEnv (fun _ _ => None) (fun _ _ => true) (fun _ => js "2026-01-01T00:00:00.000Z").

Definition cookie (name value : string) : jsval :=
  JObj [(js "name", JStr (js name)); (js "value", JStr (js value))].

Definition good_cookies : jsval :=
  JArr [cookie "c_user" "100012345"; cookie "xs" "abc123"].

Definition req_with (count delay : jsval) : request :=
  mkRequest good_cookies (JStr (js "Hello")) JUndef count delay.

(** Three posts, five seconds apart. *)
Definition req_three : request := req_with (JNum (js "3")) (JNum (js "5")).

(** A count and a delay with no leading digits. *)
Definition req_count_abc : request := req_with (JStr (js "abc")) JUndef.
Definition req_delay_abc : request := req_with (JNum (js "2")) (JStr (js "abc")).

(** [count: "abc"] with [delay: {"toString": 0}], an object [ToString]
    cannot convert. *)
Definition req_count_abc_object_delay : request :=
  req_with (JStr (js "abc")) (JObj [(js "toString", JNum (js "0"))]).

(** A cookie array holding [null]. *)
Definition req_null_cookie : request := mkRequest (JArr [JNull]) JUndef JUndef JUndef JUndef.

(** An empty body. *)
Definition req_empty : request := mkRequest JUndef JUndef JUndef JUndef JUndef.

(** A blank message with valid cookies. *)
Definition req_blank_message : request :=
  mkRequest good_cookies (JStr (js "   ")) JUndef JUndef JUndef.

(** A page on which every call resolves except [browser.close()]. *)
Definition env_close_fails : Env :=
  mkEnv (fun _ o => match o with Close => Some (js "Protocol error: Connection closed.") | _ => None end)
        (fun n _ => Nat.eqb (Nat.modulo n 6) 0) (fun _ => js "2026-01-01T00:00:00.000Z").

(** A page showing none of the aria-labels the handlers look for. *)
Definition env_logged_out : Env :=
  mkEnv (fun _ _ => None) (fun _ _ => false) (fun _ => js "2026-01-01T00:00:00.000Z").

(** One choice of the engine's message for spreading a non-iterable value
    (the theorems about [/api/share-story] hold for every choice). *)
Definition example_spread_error (v : jsval) : jsstr := js "object is not iterable".

(** ** Proofs *)

Lemma link_given_state link s :
  snd (link_given link s) = s /\ fst (link_given link s) <> Return.
Proof.
  unfold link_given, trim_method, bind, ret, throw.
  destruct (negb (truthy link)); [simpl; split; congruence|].
  destruct link; simpl; split; congruence.
Qed.

Ltac split_world :=
  repeat (cbn -[js jsstr_eqb link_given nat_to_jsstr app js_lt];
    match goal with
    | |- context [reject ?e ?n ?o] => destruct (reject e n o) eqn:?
    | |- context [dom ?e ?n ?l] => destruct (dom e n l) eqn:?
    | |- context [js_lt ?a ?b] => destruct (js_lt a b)
    | |- context [link_given ?l ?st] =>
        let E := fresh "E" in
        destruct (link_given_state l st) as [? ?];
        destruct (link_given l st) as [[[|]| ? |] ?] eqn:E;
        simpl in *; subst; try congruence
    end).

Ltac close_trace :=
  eexists; split; [rewrite <- ?app_assoc; reflexivity|].

(** A membership hypothesis in a concrete trace: keep the matching events. *)
Ltac in_trace :=
  let n := fresh "n" in let Hin := fresh "Hin" in let Hd := fresh "Hd" in
  intros n Hin; try intros Hd; simpl in Hin;
  repeat (destruct Hin as [Hin|Hin];
          [first [discriminate Hin | injection Hin; intros; subst; unfold compose_label in *; congruence] |]);
  contradiction.

Ltac find_in := repeat (first [left; reflexivity | right]).

(** What one [try] block of the attempt loop does, whatever the page answers:
    it only makes page calls and waits, navigates exactly once, pushes a
    [Success] record as the last change to [results] or throws without
    pushing anything, and succeeds exactly when the post check finds the
    compose button gone. *)
Lemma attempt_try_spec env message link sc sd i s :
  let '(c, s') := attempt_try env message link sc sd i s in
  browser s' = browser s /\ (ncalls s <= ncalls s')%nat /\
  exists tr, trace s' = trace s ++ tr /\ forallb page_event tr = true /\
    List.length (filter is_goto tr) = 1%nat /\
    (forall n, In (ECall n (Evaluate CreatePostPresent) None) tr ->
       dom env n compose_label = false ->
       c = Throw (js "Session expired during automation")) /\
    (forall n, In (ECall n (Evaluate CreatePostGone) None) tr ->
       dom env n compose_label = true ->
       c = Throw (js "Post may not have been published")) /\
    match c with
    | Normal _ =>
        (exists n, In (ECall n (Evaluate CreatePostGone) None) tr /\
                   dom env n compose_label = false) /\
        exists ts txt, results s' = results s ++ [Success (S i) ts txt]
    | Throw _ =>
        results s' = results s /\
        (forall n, In (ECall n (Evaluate CreatePostGone) None) tr ->
           dom env n compose_label = true)
    | Return => False
    end.
Proof.
  destruct s as [n0 tr0 rs0 b0].
  unfold attempt_try, between_posts, evaluate.
  unfold bind, call, sleep, emit, push, now, throw, ret.
  split_world.
  all: simpl.
  all: split; [reflexivity|]; split; [lia|].
  all: close_trace; simpl.
  all: split; [reflexivity|]; split; [reflexivity|]; split; [in_trace|];
       split; [in_trace|].
  all: try (split; [reflexivity | in_trace]).
  all: split; [eexists; split; [find_in | unfold compose_label; assumption] |
               do 2 eexists; reflexivity].
Qed.

Lemma attempt_catch_eq env sc sd i m s :
  attempt_catch env sc sd i m s =
  (Normal tt,
   mkSt (ncalls s)
        (trace s ++ if js_lt (Int (Z.of_nat i)) (js_sub_int sc 1)
                    then [ESleep (js_mul_int sd 1000)] else [])
        (results s ++ [Failure (S i) m (clock env (ncalls s))]) (browser s)).
Proof.
  destruct s as [n tr rs b].
  unfold attempt_catch, between_posts, bind, now, push, sleep, emit, ret.
  destruct (js_lt _ _); cbn [ncalls trace results browser]; rewrite ?app_nil_r;
    reflexivity.
Qed.

(** One iteration of the loop, [try] and [catch] together: it always
    completes normally and adds exactly one record, numbered [i + 1]. *)
Lemma attempt_spec env message link sc sd i s :
  let '(c, s') := attempt env message link sc sd i s in
  c = Normal tt /\ browser s' = browser s /\ (ncalls s <= ncalls s')%nat /\
  exists r tr, results s' = results s ++ [r] /\ rec_attempt r = S i /\
    trace s' = trace s ++ tr /\ forallb page_event tr = true /\
    List.length (filter is_goto tr) = 1%nat /\
    (rec_success r = true <->
       exists n, In (ECall n (Evaluate CreatePostGone) None) tr /\
                 dom env n compose_label = false) /\
    (forall n, In (ECall n (Evaluate CreatePostGone) None) tr ->
       dom env n compose_label = true ->
       exists ts, r = Failure (S i) (js "Post may not have been published") ts) /\
    (forall n, In (ECall n (Evaluate CreatePostPresent) None) tr ->
       dom env n compose_label = false ->
       exists ts, r = Failure (S i) (js "Session expired during automation") ts) /\
    (forall m s1, attempt_try env message link sc sd i s = (Throw m, s1) ->
       exists ts, r = Failure (S i) m ts).
Proof.
  unfold attempt, try_catch.
  pose proof (attempt_try_spec env message link sc sd i s) as H.
  destruct (attempt_try env message link sc sd i s) as [[u|m|] s1] eqn:E;
    cbv beta iota in H; [| | destruct H as (_ & _ & ? & _ & _ & _ & _ & _ & []) ].
  - destruct u.
    destruct H as (Hb & Hn & tr & Htr & Hpe & Hg & Hpres & Hgone & (Hok & ts & txt & Hr)).
    split; [reflexivity|]; split; [exact Hb|]; split; [exact Hn|].
    exists (Success (S i) ts txt), tr.
    repeat split; auto.
    + intros n Hin Hd. specialize (Hgone n Hin Hd). discriminate.
    + intros n Hin Hd. specialize (Hpres n Hin Hd). discriminate.
    + intros m' s' E'. discriminate.
  - destruct H as (Hb & Hn & tr & Htr & Hpe & Hg & Hpres & Hgone & (Hr & Hall)).
    rewrite attempt_catch_eq; cbn [ncalls trace results browser].
    split; [reflexivity|]; split; [exact Hb|]; split; [exact Hn|].
    exists (Failure (S i) m (clock env (ncalls s1))),
      (tr ++ if js_lt (Int (Z.of_nat i)) (js_sub_int sc 1)
             then [ESleep (js_mul_int sd 1000)] else []).
    rewrite Hr, Htr, <- app_assoc.
    assert (Hsub : forall e, In e (tr ++ if js_lt (Int (Z.of_nat i)) (js_sub_int sc 1)
                                         then [ESleep (js_mul_int sd 1000)] else []) ->
                   In e tr \/ e = ESleep (js_mul_int sd 1000)).
    { intros e Hin. apply in_app_iff in Hin as [Hin|Hin]; auto.
      destruct (js_lt _ _); simpl in Hin; intuition. }
    split; [reflexivity|]; split; [reflexivity|]; split; [reflexivity|].
    rewrite forallb_app, Hpe, filter_app, length_app, Hg.
    split; [destruct (js_lt _ _); reflexivity|].
    split; [destruct (js_lt _ _); reflexivity|].
    repeat split.
    + discriminate.
    + intros (n & Hin & Hd). destruct (Hsub _ Hin) as [Hin'|Hin']; [|discriminate].
      rewrite (Hall n Hin') in Hd. discriminate.
    + intros n Hin Hd. destruct (Hsub _ Hin) as [Hin'|Hin']; [|discriminate].
      pose proof (Hgone n Hin' Hd) as Hm. injection Hm as ->. eauto.
    + intros n Hin Hd. destruct (Hsub _ Hin) as [Hin'|Hin']; [|discriminate].
      pose proof (Hpres n Hin' Hd) as Hm. injection Hm as ->. eauto.
    + intros m' s' E'. injection E' as <- _. eauto.
Qed.

(** [n] iterations of the loop starting at index [i] complete normally and
    add records numbered [i+1 .. i+n], one navigation each. *)
Lemma share_loop_spec env message link sc sd n i s :
  let '(c, s') := share_loop env message link sc sd n i s in
  c = Normal tt /\ browser s' = browser s /\ (ncalls s <= ncalls s')%nat /\
  exists rs tr, results s' = results s ++ rs /\ map rec_attempt rs = seq (S i) n /\
    trace s' = trace s ++ tr /\ forallb page_event tr = true /\
    List.length (filter is_goto tr) = n.
Proof.
  revert i s; induction n as [|n IH]; intros i s.
  - simpl. repeat split; try lia. exists [], []. rewrite !app_nil_r. auto.
  - cbn [share_loop]. unfold bind.
    pose proof (attempt_spec env message link sc sd i s) as H1.
    destruct (attempt env message link sc sd i s) as [c1 s1].
    destruct H1 as (-> & Hb1 & Hn1 & r & tr1 & Hr1 & Ha1 & Ht1 & Hp1 & Hg1 & _).
    pose proof (IH (S i) s1) as H2.
    destruct (share_loop env message link sc sd n (S i) s1) as [c2 s2].
    destruct H2 as (-> & Hb2 & Hn2 & rs & tr2 & Hr2 & Ha2 & Ht2 & Hp2 & Hg2).
    split; [reflexivity|]; split; [congruence|]; split; [lia|].
    exists (r :: rs), (tr1 ++ tr2).
    rewrite Hr2, Hr1, Ht2, Ht1, <- !app_assoc.
    split; [reflexivity|]; split; [simpl; congruence|]; split; [reflexivity|].
    rewrite forallb_app, Hp1, Hp2, filter_app, length_app, Hg1, Hg2.
    split; reflexivity.
Qed.

Ltac frame_response :=
  lazymatch goal with
  | |- exists pre st b post, (?X ++ [ERespond ?s ?b']) ++ [?c] = _ /\ _ =>
      exists X, s, b', [c]
  | |- exists pre st b post, ?X ++ [ERespond ?s ?b'] = _ /\ _ =>
      exists X, s, b', []
  end;
  split; [rewrite <- ?app_assoc; reflexivity|].

Lemma page_events_quiet tr :
  forallb page_event tr = true ->
  forallb quiet tr = true /\ acquired tr = false.
Proof.
  induction tr as [|e tr IH]; [auto|].
  simpl. intros H. apply andb_prop in H as [He Ht].
  destruct (IH Ht) as [-> ->].
  destruct e as [n o r| |]; [destruct o|..]; try discriminate; auto.
Qed.

Ltac split_share :=
  repeat (cbn -[js jsstr_eqb nat_to_jsstr app js_lt share_loop shareCount shareDelay
               success_rate trip_count filter List.length js_trim];
    match goal with
    | |- context [reject ?e ?n ?o] => destruct (reject e n o) eqn:?
    | |- context [share_loop ?e ?m ?l ?sc ?sd ?n ?i ?st] =>
        let H := fresh "HL" in let Hb := fresh "Hb" in let Hr := fresh "Hr" in
        let Ht := fresh "Ht" in let Hp := fresh "Hp" in let Hg := fresh "Hg" in
        let Ha := fresh "Ha" in
        pose proof (share_loop_spec e m l sc sd n i st) as H;
        destruct (share_loop e m l sc sd n i st) as [? ?];
        destruct H as (-> & Hb & ? & ? & ? & Hr & Ha & Ht & Hp & Hg);
        cbn [browser results trace ncalls] in Hb, Hr, Ht;
        rewrite ?Hb, ?Hr, ?Ht
    | |- context [match message ?r with _ => _ end] => destruct (message r)
    | |- context [match js_trim ?s with _ => _ end] => destruct (js_trim s)
    | |- context [match shareCount ?r with _ => _ end] => destruct (shareCount r) eqn:?
    | |- context [match shareDelay ?r with _ => _ end] => destruct (shareDelay r) eqn:?
    | |- context [if ?b then _ else _] => destruct b eqn:?
    end).

(** How every [/api/share] request ends: a single response, then the release
    of the browser when it was acquired; a posting report whose records are
    numbered [1 .. shareCount] and whose summary is computed from them, or an
    error envelope sent before any attempt navigated. *)
Lemma share_spec env req :
  exists pre st b post,
    trace (run_share env req) = pre ++ [ERespond st b] ++ post /\
    forallb quiet pre = true /\
    ((acquired pre = true /\ exists n r, post = [ECall n Close r]) \/
     (acquired pre = false /\ post = [])) /\
    match b with
    | ShareBody rs sm =>
        st = 200 /\ shareCount req = Some (total sm) /\
        map rec_attempt rs = seq 1 (trip_count (total sm)) /\
        successful sm = List.length (filter rec_success rs) /\
        failed sm = List.length (filter (fun r => negb (rec_success r)) rs) /\
        successRate sm = success_rate (successful sm) (total sm) /\
        List.length (filter is_goto pre) = trip_count (total sm)
    | _ => existsb is_goto pre = false
    end.
Proof.
  unfold run_share, share, st0, try_finally, try_catch, trim_method, or_throw.
  unfold bind, call, respond, emit, early_return, throw, ret, set_browser, get_browser,
    get_results.
  split_share.
  all: cbn -[js jsstr_eqb nat_to_jsstr app js_lt share_loop shareCount shareDelay
               success_rate trip_count filter List.length js_trim].
  all: frame_response.
  all: unfold acquired; rewrite ?forallb_app, ?existsb_app, ?filter_app, ?length_app.
  all: repeat match goal with
         | H : forallb page_event ?t = true |- _ =>
             destruct (page_events_quiet t H) as [?Hq ?Hl]; unfold acquired in Hl;
             rewrite ?Hq, ?Hl; clear H
         end.
  all: cbn -[js shareCount trip_count].
  all: split; [reflexivity|].
  all: split; [first [right; split; reflexivity | left; split; [reflexivity | eauto]]|].
  all: try reflexivity.
  all: repeat split; assumption.
Qed.

Lemma find_name_state l name s :
  snd (find_name l name s) = s /\ fst (find_name l name s) <> Return.
Proof.
  induction l as [|c t IH]; [simpl; split; congruence|].
  destruct c; simpl; try (split; congruence); try exact IH;
    try (destruct (assoc _ _) as [| | | |n| |]; try exact IH;
         destruct (jsstr_eqb n name); [simpl; split; congruence | exact IH]).
Qed.

(** How every [/api/validate] request ends: a single response, then the
    release of the browser when it was acquired. *)
Lemma validate_spec env req : responds_then_releases (trace (run_validate env req)).
Proof.
  unfold responds_then_releases, run_validate, validate, st0, try_finally, try_catch,
    evaluate.
  unfold bind, call, respond, emit, early_return, throw, ret, set_browser,
    get_browser.
  repeat (cbn -[js jsstr_eqb app find_name run_page_fn];
    match goal with
    | |- context [reject ?e ?n ?o] => destruct (reject e n o) eqn:?
    | |- context [find_name ?l ?nm ?st] =>
        let E := fresh "E" in
        destruct (find_name_state l nm st) as [? ?];
        destruct (find_name l nm st) as [[?| ? |] ?] eqn:E;
        simpl in *; subst; try congruence
    | |- context [if ?b then _ else _] => destruct b eqn:?
    end).
  all: cbn -[js jsstr_eqb app find_name run_page_fn].
  all: frame_response.
  all: unfold acquired; cbn -[js].
  all: split; [reflexivity|].
  all: first [right; split; reflexivity | left; split; [reflexivity | eauto]].
Qed.

Lemma response_of_frame pre st b post :
  forallb quiet pre = true -> response_of (pre ++ ERespond st b :: post) = Some (st, b).
Proof.
  induction pre as [|e pre IH]; [reflexivity|].
  simpl. intros H. apply andb_prop in H as [He Hp].
  destruct e; simpl in He; try discriminate; apply IH; exact Hp.
Qed.

Lemma clamp_cases x lo hi n :
  lo <= hi -> clamp x lo hi = Some n -> n = NaN \/ exists c, n = Int c /\ lo <= c <= hi.
Proof.
  intros Hle. unfold clamp.
  destruct (parseInt x) as [m|]; cbn [option_map]; intros H; [|discriminate].
  injection H as <-.
  destruct m as [| | |z]; simpl; auto;
    right; eexists; (split; [reflexivity|lia]).
Qed.

(** +Infinity never reaches the loop condition. *)
Lemma clamp_not_pinf x lo hi : lo <= hi -> clamp x lo hi <> Some PInf.
Proof.
  intros Hle H. destruct (clamp_cases x lo hi PInf Hle H) as [? | (c & ? & _)]; discriminate.
Qed.

(** The clamp on numeric input, and the boundary values of the spec. *)
Lemma clamp_examples :
  shareCount (req_with (JNum (js "15")) JUndef) = Some (Int 10) /\
  shareDelay (req_with JUndef (JNum (js "2"))) = Some (Int 5) /\
  shareDelay (req_with JUndef (JNum (js "90"))) = Some (Int 60) /\
  shareCount (req_with JUndef JUndef) = Some (Int 1) /\
  shareDelay (req_with JUndef JUndef) = Some (Int 15) /\
  shareCount (req_with (JStr (js "0x7")) JUndef) = Some (Int 7).
Proof. repeat split; vm_compute; reflexivity. Qed.

(** The summary is consistent whenever the clamped count is a number. *)
Lemma share_summary_numeric env req st rs sm c :
  response_of (trace (run_share env req)) = Some (st, ShareBody rs sm) ->
  total sm = Int c ->
  (successful sm + failed sm)%nat = Z.to_nat c /\
  successRate sm = Int ((200 * Z.of_nat (successful sm) + c) / (2 * c)).
Proof.
  intros Hresp Ht.
  destruct (share_spec env req) as (pre & st' & b & post & Htr & Hq & _ & Hb).
  rewrite Htr in Hresp. simpl in Hresp.
  rewrite response_of_frame in Hresp by exact Hq.
  injection Hresp as Est Eb. subst st' b.
  destruct Hb as (_ & Htot & Hmap & Hs & Hf & Hrate & _).
  rewrite Ht in Htot, Hmap. cbn [trip_count] in Hmap.
  destruct (clamp_cases (default (count req) (JNum (js "1"))) 1 10 (Int c) ltac:(lia) Htot)
    as [Hn|(c' & Hc' & Hr)]; [discriminate|].
  injection Hc' as <-.
  split.
  - rewrite Hs, Hf.
    assert (Hl : List.length rs = Z.to_nat c).
    { rewrite <- (length_map rec_attempt), Hmap, length_seq. reflexivity. }
    rewrite <- Hl. clear.
    induction rs as [|r rs IH]; [reflexivity|].
    destruct r; simpl; lia.
  - rewrite Hrate, Ht. unfold success_rate.
    replace (c =? 0) with false by (symmetry; apply Z.eqb_neq; lia). reflexivity.
Qed.

Lemma share_response env req :
  exists st b, response_of (trace (run_share env req)) = Some (st, b) /\
    match b with
    | ShareBody rs sm =>
        st = 200 /\ shareCount req = Some (total sm) /\
        map rec_attempt rs = seq 1 (trip_count (total sm)) /\
        successful sm = List.length (filter rec_success rs) /\
        failed sm = List.length (filter (fun r => negb (rec_success r)) rs) /\
        successRate sm = success_rate (successful sm) (total sm)
    | _ => existsb is_goto (trace (run_share env req)) = false
    end.
Proof.
  destruct (share_spec env req) as (pre & st & b & post & Htr & Hq & Hpost & Hb).
  exists st, b. rewrite Htr. simpl. rewrite response_of_frame by exact Hq.
  split; [reflexivity|].
  destruct b; try (destruct Hb as (? & ? & ? & ? & ? & ? & _); repeat split; assumption);
    rewrite existsb_app, Hb;
    destruct Hpost as [(_ & n & r & ->) | (_ & ->)]; reflexivity.
Qed.


Lemma find_name_nonnull l name s :
  forallb nonnull l = true ->
  exists v, find_name l name s = (Normal v, s) /\ truthy v = has_cookie l name.
Proof.
  induction l as [|c t IH]; intros H; [exists JUndef; split; reflexivity|].
  simpl in H. apply andb_prop in H as [Hc Ht].
  destruct c; try discriminate; try (apply IH; exact Ht);
    unfold has_cookie; simpl;
    destruct (assoc _ _) as [| | | |n| |]; try (apply IH; exact Ht);
    destruct (jsstr_eqb n name); [eexists; split; reflexivity | apply IH; exact Ht].
Qed.

(** Cookie arrays whose entries are all non-null get the spec's 400 when a
    required cookie is missing, with no browser call. *)
Lemma validate_missing_cookie env req l :
  appstate req = JArr l -> forallb nonnull l = true ->
  has_cookie l (js "c_user") = false \/ has_cookie l (js "xs") = false ->
  trace (run_validate env req) =
    [ERespond 400 (ErrBody (js "Missing required cookies: c_user or xs"))].
Proof.
  intros Happ Hn Hmiss.
  destruct (find_name_nonnull l (js "c_user") st0 Hn) as (cu & Hcu & Tcu).
  destruct (find_name_nonnull l (js "xs") st0 Hn) as (x & Hx & Tx).
  unfold run_validate, validate, try_finally, try_catch, bind. rewrite Happ.
  cbn [truthy is_array negb orb elements]. rewrite Hcu, Hx.
  assert (Hor : negb (truthy cu) || negb (truthy x) = true)
    by (rewrite Tcu, Tx; destruct Hmiss as [-> | ->]; [reflexivity | apply orb_true_r]).
  rewrite Hor. reflexivity.
Qed.

(** * The claims *)

(** C1: for every posting run, [successful + failed = total] and
    [successRate = round(successful / total * 100)].  This fails when [count]
    has no leading digits, here ["abc"]: [total] is NaN while [successful]
    and [failed] are both 0, so their sum is not [total].  (The summary is
    consistent whenever [total] is a number: [share_summary_numeric].) *)
Theorem share_summary_nan_total :
  response_of (trace (run_share env_ok req_count_abc)) =
    Some (200, ShareBody [] (mkSummary NaN 0 0 NaN)) /\
  total (mkSummary NaN 0 0 NaN) <> Int (Z.of_nat (0 + 0)).
Proof. split; [vm_compute; reflexivity | discriminate]. Qed.

(** C2: when [/api/share] answers with a log and a summary whose [total] is
    the number [c], then [1 <= c <= 10] and the log has exactly [c] records,
    numbered [1 .. c] in order. *)
Theorem share_results_ordinals env req st rs sm c :
  response_of (trace (run_share env req)) = Some (st, ShareBody rs sm) ->
  total sm = Int c ->
  1 <= c <= 10 /\ List.length rs = Z.to_nat c /\ map rec_attempt rs = seq 1 (Z.to_nat c).
Proof.
  intros Hresp Ht.
  destruct (share_response env req) as (st' & b & Hr & Hb).
  rewrite Hresp in Hr. injection Hr as <- <-.
  destruct Hb as (_ & Htot & Hmap & _).
  rewrite Ht in Htot, Hmap.
  destruct (clamp_cases (default (count req) (JNum (js "1"))) 1 10 (Int c) ltac:(lia) Htot)
    as [Hn|(c' & Hc' & Hrange)]; [discriminate|].
  injection Hc' as <-. simpl in Hmap.
  split; [exact Hrange|]. split; [|exact Hmap].
  rewrite <- (length_map rec_attempt), Hmap, length_seq. reflexivity.
Qed.

Lemma share_results_ordinals_witness :
  exists st rs sm,
    response_of (trace (run_share env_ok req_three)) = Some (st, ShareBody rs sm) /\
    total sm = Int 3 /\
    (1 <= 3 <= 10 /\ List.length rs = Z.to_nat 3 /\ map rec_attempt rs = seq 1 (Z.to_nat 3)).
Proof.
  lazymatch eval vm_compute in (response_of (trace (run_share env_ok req_three))) with
  | Some (?st, ShareBody ?rs ?sm) =>
      exists st, rs, sm;
      split; [vm_compute; reflexivity|]; split; [reflexivity|];
      apply (share_results_ordinals env_ok req_three st rs sm 3); vm_compute; reflexivity
  end.
Defined.

(** C3: an error raised by the steps of an attempt is caught by the
    attempt's own [catch]: the attempt completes normally and appends a
    Failure record, numbered [i + 1], that carries the raised message; the
    loop therefore always completes normally; and once any attempt has
    started, the caller receives status 200 with the complete log (records
    [1 .. count]) and the summary. *)
Theorem share_attempt_errors_caught :
  (forall env message link sc sd i s m s1,
     attempt_try env message link sc sd i s = (Throw m, s1) ->
     fst (attempt env message link sc sd i s) = Normal tt /\
     exists ts, results (snd (attempt env message link sc sd i s)) =
                results s ++ [Failure (S i) m ts]) /\
  (forall env message link sc sd n i s,
     fst (share_loop env message link sc sd n i s) = Normal tt) /\
  (forall env req,
     existsb is_goto (trace (run_share env req)) = true ->
     exists rs sm, response_of (trace (run_share env req)) = Some (200, ShareBody rs sm) /\
       map rec_attempt rs = seq 1 (trip_count (total sm))).
Proof.
  split; [|split].
  - intros env message link sc sd i s m s1 Hthrow.
    pose proof (attempt_spec env message link sc sd i s) as H.
    destruct (attempt env message link sc sd i s) as [c s'].
    destruct H as (-> & _ & _ & r & tr & Hr & _ & _ & _ & _ & _ & _ & _ & Hcatch).
    destruct (Hcatch m s1 Hthrow) as [ts ->].
    split; [reflexivity|]. exists ts. exact Hr.
  - intros env message link sc sd n i s.
    pose proof (share_loop_spec env message link sc sd n i s) as H.
    destruct (share_loop env message link sc sd n i s) as [c s'].
    destruct H as [-> _]. reflexivity.
  - intros env req Hgoto.
    destruct (share_response env req) as (st & b & Hr & Hb).
    destruct b as [e | rs sm | m u id | m]; try congruence.
    destruct Hb as (-> & Ht & Hmap & _).
    exists rs, sm. auto.
Qed.

(** C4: an [/api/validate] request whose cookie array lacks [c_user] or
    [xs] gets status 400 before any browser is launched.  A cookie array
    holding [null] lacks both, yet [find]'s callback reads [c.name] of
    [null]: the request ends with status 500 (still without a browser). *)
Theorem validate_null_cookie env :
  trace (run_validate env req_null_cookie) =
    [ERespond 500 (ErrBody (js "Validation failed: Cannot read properties of null (reading 'name')"))].
Proof. reflexivity. Qed.

(** C5: [count] is coerced to an integer in [1 .. 10] and [delay] to one in
    [5 .. 60] (the spec's boundary cases hold: [clamp_examples]).  Input with
    no leading digits escapes the clamp: [parseInt] gives NaN, and NaN goes
    through [Math.max] and [Math.min]; with [delay = "abc"] the wait between
    two posts is [setTimeout(_, NaN)], about a millisecond. *)
Theorem share_clamp_nan :
  shareCount req_count_abc = Some NaN /\ shareDelay req_delay_abc = Some NaN /\
  In (ESleep NaN) (trace (run_share env_ok req_delay_abc)).
Proof. split; [|split]; vm_compute; auto 20. Qed.

(** C6: when the login check of attempt [i + 1] finds no compose button,
    that attempt is recorded as a Failure with the reason
    ["Session expired during automation"]; the loop then runs the
    remaining [n] attempts from the state the failed one left, exactly as it
    would after any attempt: they are recorded as [i + 2 .. i + n + 1] and each
    of them navigates to the page again. *)
Theorem share_session_expired_continues env message link sc sd n i s :
  let '(_, s1) := attempt env message link sc sd i s in
  exists r tr,
    results s1 = results s ++ [r] /\ trace s1 = trace s ++ tr /\
    (forall k, In (ECall k (Evaluate CreatePostPresent) None) tr ->
       dom env k compose_label = false ->
       exists ts, r = Failure (S i) (js "Session expired during automation") ts) /\
    share_loop env message link sc sd (S n) i s = share_loop env message link sc sd n (S i) s1 /\
    let '(c2, s2) := share_loop env message link sc sd n (S i) s1 in
    c2 = Normal tt /\
    exists rs tr2, results s2 = results s1 ++ rs /\ map rec_attempt rs = seq (S (S i)) n /\
      trace s2 = trace s1 ++ tr2 /\ List.length (filter is_goto tr2) = n.
Proof.
  pose proof (attempt_spec env message link sc sd i s) as H.
  cbn [share_loop]. unfold bind.
  destruct (attempt env message link sc sd i s) as [c1 s1].
  destruct H as (-> & _ & _ & r & tr & Hr & _ & Ht & _ & _ & _ & _ & Hexp & _).
  exists r, tr. split; [exact Hr|]. split; [exact Ht|]. split; [exact Hexp|].
  split; [reflexivity|].
  pose proof (share_loop_spec env message link sc sd n (S i) s1) as H2.
  destruct (share_loop env message link sc sd n (S i) s1) as [c2 s2].
  destruct H2 as (-> & _ & _ & rs & tr2 & Hrs & Hmap & Ht2 & _ & Hg).
  split; [reflexivity|]. exists rs, tr2. auto.
Qed.

(** C7: an attempt succeeds exactly when the check made after clicking
    [Post] finds the compose button gone; when that check still finds it,
    the attempt is recorded as a Failure with the reason
    ["Post may not have been published"]. *)
Theorem share_publish_check env message link sc sd i s :
  let '(_, s1) := attempt env message link sc sd i s in
  exists r tr,
    results s1 = results s ++ [r] /\ trace s1 = trace s ++ tr /\
    (rec_success r = true <->
       exists k, In (ECall k (Evaluate CreatePostGone) None) tr /\
                 dom env k compose_label = false) /\
    (forall k, In (ECall k (Evaluate CreatePostGone) None) tr ->
       dom env k compose_label = true ->
       exists ts, r = Failure (S i) (js "Post may not have been published") ts).
Proof.
  pose proof (attempt_spec env message link sc sd i s) as H.
  destruct (attempt env message link sc sd i s) as [c1 s1].
  destruct H as (_ & _ & _ & r & tr & Hr & _ & Ht & _ & _ & Hok & Hgone & _).
  exists r, tr. auto.
Qed.

(** C8: when a request acquires a browser, it releases it exactly once on
    every exit path, before the response completes.  The release does happen
    exactly once on every path, but after the response: [res.json] runs
    before the [finally] block that closes the browser. *)
Lemma validate_close_after_response :
  ~ released_before_response (trace (run_validate env_ok (mkRequest good_cookies JUndef JUndef JUndef JUndef))).
Proof.
  intros H.
  assert (Hlt : (9 < 8)%nat) by (apply (H 9%nat 8%nat (ECall 8 Close None) (ERespond 200
    (ValidBody (js "Session is valid and ready for automation") (JStr (js "Facebook User"))
       (JStr (js "100012345"))))); vm_compute; reflexivity).
  lia.
Qed.

(** C8 (as the code has it): every request to [/api/validate] and
    [/api/share] sends exactly one response; the browser is closed exactly
    once, right after that response, when it was launched before it, and is
    never closed otherwise. *)
Theorem handlers_release_after_response env req :
  responds_then_releases (trace (run_validate env req)) /\
  responds_then_releases (trace (run_share env req)).
Proof.
  split; [apply validate_spec|].
  destruct (share_spec env req) as (pre & st & b & post & Htr & Hq & Hpost & _).
  exists pre, st, b, post. auto.
Qed.

(** C9: an [/api/share] request whose message is missing or blank gets
    status 400 with ["Message is required"], runs no attempt and launches no
    browser.  The cookie array is checked first, so a body lacking both gets
    ["Invalid AppState format"] instead. *)
Lemma share_empty_body_appstate_first :
  response_of (trace (run_share env_ok req_empty)) = Some (400, ErrBody (js "Invalid AppState format")) /\
  response_of (trace (run_share env_ok req_empty)) <> Some (400, ErrBody (js "Message is required")).
Proof. split; vm_compute; [reflexivity | discriminate]. Qed.

(** C9 (as the code has it): when the cookie field is an array and the
    message is missing (falsy) or a string that trims to empty, the whole
    run is the single response 400 ["Message is required"]: no browser call,
    no attempt. *)
Theorem share_message_required env req l :
  appstate req = JArr l ->
  (truthy (message req) = false \/ exists s, message req = JStr s /\ js_trim s = []) ->
  trace (run_share env req) = [ERespond 400 (ErrBody (js "Message is required"))].
Proof.
  intros Happ Hmsg.
  unfold run_share, share. rewrite Happ.
  destruct Hmsg as [Hf | (s & Hs & Ht)].
  - rewrite Hf. reflexivity.
  - rewrite Hs. destruct s as [|u s]; [reflexivity|].
    unfold try_finally, try_catch, bind. cbn - [js js_trim]. rewrite Ht. reflexivity.
Qed.

Lemma share_message_required_witness :
  trace (run_share env_ok req_blank_message) = [ERespond 400 (ErrBody (js "Message is required"))].
Proof.
  apply (share_message_required env_ok req_blank_message [cookie "c_user" "100012345"; cookie "xs" "abc123"]);
    [reflexivity | right; exists (js "   "); split; vm_compute; reflexivity].
Defined.

(** C10: when [count] is present but [parseInt] gives NaN while the cookie
    array and the message are valid, the endpoint still answers 200 with an
    empty log.  Not when [parseInt(delay)] throws: with
    [delay = {"toString": 0}] line 161 raises a [TypeError], the answer is
    500 and no browser is launched. *)
Lemma share_nan_count_object_delay :
  parseInt (count req_count_abc_object_delay) = Some NaN /\
  trace (run_share env_ok req_count_abc_object_delay) =
    [ERespond 500 (ErrBody (js "Sharing failed: Cannot convert object to primitive value"))].
Proof. split; reflexivity. Qed.

(** C10 (corrected): when [count] is present but [parseInt] gives NaN, while
    the cookie array and the message are valid, [parseInt(delay)] does not
    throw and the browser set-up succeeds, the clamp gives NaN, the loop runs
    no iteration (no navigation at all), and the response is 200 with an
    empty log and the summary
    [{total: NaN, successful: 0, failed: 0, successRate: NaN}]. *)
Theorem share_nan_count_empty_run env req l s :
  appstate req = JArr l -> message req = JStr s -> js_trim s <> [] ->
  count req <> JUndef -> parseInt (count req) = Some NaN ->
  shareDelay req <> None ->
  (forall k o, (k < 5)%nat -> reject env k o = None) ->
  response_of (trace (run_share env req)) = Some (200, ShareBody [] (mkSummary NaN 0 0 NaN)) /\
  existsb is_goto (trace (run_share env req)) = false.
Proof.
  intros Happ Hmsg Htrim Hc Hp Hd Hrej.
  assert (Hsc : shareCount req = Some NaN).
  { unfold shareCount, clamp, default. destruct (count req); try congruence; rewrite Hp; reflexivity. }
  destruct (shareDelay req) as [sd|] eqn:Hsd; [|congruence].
  assert (Hs : s <> []) by (intros ->; apply Htrim; reflexivity).
  unfold run_share, share. rewrite Happ, Hmsg.
  destruct s as [|u s]; [congruence|].
  unfold try_finally, try_catch, bind, call, ret, set_browser, get_browser, get_results,
    respond, emit, early_return, trim_method, or_throw.
  cbn -[js js_trim shareCount shareDelay].
  destruct (js_trim (u :: s)) as [|v t]; [congruence|].
  rewrite Hsc, Hsd. unfold ret, st0. cbn -[js].
  rewrite (Hrej 0%nat), (Hrej 1%nat), (Hrej 2%nat), (Hrej 3%nat), (Hrej 4%nat) by lia.
  cbn -[js].
  destruct (reject env 5 Close); split; reflexivity.
Qed.

Lemma share_nan_count_empty_run_witness :
  response_of (trace (run_share env_ok req_count_abc)) = Some (200, ShareBody [] (mkSummary NaN 0 0 NaN)) /\
  existsb is_goto (trace (run_share env_ok req_count_abc)) = false.
Proof.
  apply (share_nan_count_empty_run env_ok req_count_abc
           [cookie "c_user" "100012345"; cookie "xs" "abc123"] (js "Hello"));
    [reflexivity | reflexivity | vm_compute; discriminate | discriminate | vm_compute; reflexivity
    | vm_compute; discriminate | intros k o _; reflexivity].
Defined.

(** * Further properties of the handlers *)

(** The [catch] handlers only respond, so they never throw. *)
Lemma respond_no_throw st b s e : fst (respond st b s) <> Throw e.
Proof. discriminate. Qed.

(** A handler of the shape [try { p } catch { h } finally { close }] throws
    only when [browser.close()] rejects, and then with its error. *)
Lemma finally_close_throw {A} env (p : M A) (h : jsstr -> M A) s e :
  (forall m s' e', fst (h m s') <> Throw e') ->
  fst (try_finally (try_catch p h) (b <- get_browser;; if b then call env Close else ret tt) s)
    = Throw e ->
  exists pre n,
    trace (snd (try_finally (try_catch p h) (b <- get_browser;; if b then call env Close else ret tt) s))
      = pre ++ [ECall n Close (Some e)].
Proof.
  intros Hh. unfold try_finally, try_catch, bind, get_browser, call, ret.
  destruct (p s) as [c1 s1].
  assert (Hc : forall e', fst (match (c1, s1) with (Throw e0, s') => h e0 s' | r => r end)
                          <> Throw e').
  { intros e'. destruct c1; simpl; [discriminate | apply Hh | discriminate]. }
  destruct (match (c1, s1) with (Throw e0, s') => h e0 s' | r => r end) as [c s2].
  simpl in Hc. cbn.
  destruct (browser s2).
  - destruct (reject env (ncalls s2) Close) eqn:E; cbn.
    + intros H. injection H as ->. exists (trace s2), (ncalls s2). reflexivity.
    + intros H. exfalso. exact (Hc e H).
  - intros H. exfalso. exact (Hc e H).
Qed.

(** X1: the promise returned by each of the three handlers rejects (an
    unhandled rejection for Express) only when [browser.close()] in the
    [finally] block rejects, with that error; the close call is then the
    last event of the run. *)
Theorem handlers_reject_only_on_close env spread_error req e :
  (fst (validate env req st0) = Throw e ->
   exists pre n, trace (run_validate env req) = pre ++ [ECall n Close (Some e)]) /\
  (fst (share env req st0) = Throw e ->
   exists pre n, trace (run_share env req) = pre ++ [ECall n Close (Some e)]) /\
  (fst (share_story env spread_error req st0) = Throw e ->
   exists pre n, trace (run_share_story env spread_error req) = pre ++ [ECall n Close (Some e)]).
Proof.
  unfold run_validate, run_share, run_share_story, validate, share, share_story.
  split; [|split]; apply finally_close_throw; intros; apply respond_no_throw.
Qed.

Lemma handlers_reject_only_on_close_witness :
  fst (validate env_close_fails (mkRequest good_cookies JUndef JUndef JUndef JUndef) st0)
    = Throw (js "Protocol error: Connection closed.") /\
  exists pre n, trace (run_validate env_close_fails (mkRequest good_cookies JUndef JUndef JUndef JUndef))
                = pre ++ [ECall n Close (Some (js "Protocol error: Connection closed."))].
Proof.
  assert (H : fst (validate env_close_fails (mkRequest good_cookies JUndef JUndef JUndef JUndef) st0)
              = Throw (js "Protocol error: Connection closed.")) by (vm_compute; reflexivity).
  split; [exact H|].
  exact (proj1 (handlers_reject_only_on_close env_close_fails example_spread_error
                  (mkRequest good_cookies JUndef JUndef JUndef JUndef) _) H).
Defined.

Ltac split_story :=
  unfold run_share_story, share_story, st0, try_finally, try_catch, spread;
  unfold bind, call, respond, emit, early_return, throw, ret, set_browser, get_browser;
  repeat (cbn -[js app];
    match goal with
    | |- context [reject ?e ?n ?o] => destruct (reject e n o) eqn:?
    | |- context [if ?b then _ else _] => destruct b eqn:?
    | |- context [match appstate ?r with _ => _ end] => destruct (appstate r) eqn:?
    end).

(** X2: every [/api/share-story] request sends exactly one response; the
    browser is closed exactly once, right after it, when it was launched, and
    never otherwise. *)
Theorem share_story_releases env spread_error req :
  responds_then_releases (trace (run_share_story env spread_error req)).
Proof.
  unfold responds_then_releases. split_story.
  all: cbn -[js app].
  all: frame_response.
  all: unfold acquired; cbn -[js].
  all: split; [reflexivity|].
  all: first [right; split; reflexivity | left; split; [reflexivity | eauto]].
Qed.

(** X3: [/api/share-story] never clicks, types or reads the page: its only
    browser calls are [launch], [newPage], [setCookie], [goto] of
    https://facebook.com and [close]. *)
Theorem share_story_never_posts env spread_error req :
  calls_none (fun o => negb (story_calls o)) (trace (run_share_story env spread_error req)) = true /\
  calls_none posts (trace (run_share_story env spread_error req)) = true /\
  calls_none inspects (trace (run_share_story env spread_error req)) = true.
Proof. split_story. all: repeat split; reflexivity. Qed.

(** X4: an [/api/share-story] request lacking a truthy [appstate] or a
    truthy [message] is answered 400 ["AppState and message are required"],
    with no browser call. *)
Theorem share_story_requires_fields env spread_error req :
  truthy (appstate req) = false \/ truthy (message req) = false ->
  trace (run_share_story env spread_error req) =
    [ERespond 400 (ErrBody (js "AppState and message are required"))].
Proof.
  intros H. unfold run_share_story, share_story.
  destruct H as [H | H]; rewrite H; [reflexivity | rewrite orb_true_r; reflexivity].
Qed.

Lemma share_story_requires_fields_witness :
  trace (run_share_story env_ok example_spread_error
           (mkRequest good_cookies JUndef JUndef JUndef JUndef)) =
    [ERespond 400 (ErrBody (js "AppState and message are required"))].
Proof.
  apply share_story_requires_fields. right. reflexivity.
Defined.

(** X5: [/api/share-story] answers 200 with its fixed message, after
    loading the page, as soon as the cookie array is an array, the message
    is truthy (a blank message such as ["   "] is accepted) and the four
    browser calls resolve: nothing is clicked, typed or checked on the
    page. *)
Theorem share_story_reports_success env spread_error req l :
  appstate req = JArr l -> truthy (message req) = true ->
  (forall k o, (k < 4)%nat -> reject env k o = None) ->
  response_of (trace (run_share_story env spread_error req)) = Some (200, MsgBody story_message) /\
  In (ECall 3 (Goto facebook_url) None) (trace (run_share_story env spread_error req)) /\
  calls_none posts (trace (run_share_story env spread_error req)) = true /\
  calls_none inspects (trace (run_share_story env spread_error req)) = true.
Proof.
  intros Happ Hmsg Hrej.
  unfold run_share_story, share_story, st0, try_finally, try_catch, spread.
  rewrite Happ, Hmsg.
  unfold bind, call, respond, emit, early_return, throw, ret, set_browser, get_browser.
  cbn -[js].
  rewrite (Hrej 0%nat), (Hrej 1%nat), (Hrej 2%nat), (Hrej 3%nat) by lia.
  cbn -[js].
  destruct (reject env 4 Close);
    (split; [reflexivity | split; [cbn; tauto | split; reflexivity]]).
Qed.

Lemma share_story_reports_success_witness :
  response_of (trace (run_share_story env_ok example_spread_error
                        (mkRequest good_cookies (JStr (js "   ")) JUndef JUndef JUndef)))
    = Some (200, MsgBody story_message) /\
  In (ECall 3 (Goto facebook_url) None)
     (trace (run_share_story env_ok example_spread_error
               (mkRequest good_cookies (JStr (js "   ")) JUndef JUndef JUndef))) /\
  calls_none posts (trace (run_share_story env_ok example_spread_error
               (mkRequest good_cookies (JStr (js "   ")) JUndef JUndef JUndef))) = true /\
  calls_none inspects (trace (run_share_story env_ok example_spread_error
               (mkRequest good_cookies (JStr (js "   ")) JUndef JUndef JUndef))) = true.
Proof.
  apply (share_story_reports_success env_ok example_spread_error _
           [cookie "c_user" "100012345"; cookie "xs" "abc123"]);
    [reflexivity | reflexivity | intros k o _; reflexivity].
Defined.

(** X6: a truthy [appstate] that is neither an array nor a string (a
    number, [true] or an object) makes [page.setCookie(...appstate)] throw
    after the browser was launched: the request is answered 500 with the
    engine's [TypeError] message, unprefixed, and the browser is closed. *)
Theorem share_story_non_iterable env spread_error req :
  truthy (appstate req) = true -> truthy (message req) = true ->
  is_array (appstate req) = false -> (forall s, appstate req <> JStr s) ->
  reject env 0 Launch = None -> reject env 1 NewPage = None ->
  trace (run_share_story env spread_error req) =
    [ECall 0 Launch None; ECall 1 NewPage None;
     ERespond 500 (ErrBody (spread_error (appstate req)));
     ECall 2 Close (reject env 2 Close)].
Proof.
  intros Ht Hm Ha Hs H0 H1.
  unfold run_share_story, share_story, st0, try_finally, try_catch.
  rewrite Ht, Hm.
  unfold bind, call, respond, emit, early_return, throw, ret, set_browser, get_browser.
  cbn -[js spread]. rewrite H0. cbn -[js spread]. rewrite H1. cbn -[js].
  destruct (appstate req) eqn:E; try discriminate;
    try (exfalso; eapply Hs; reflexivity);
    cbn; destruct (reject env 2 Close); reflexivity.
Qed.

Lemma share_story_non_iterable_witness :
  trace (run_share_story env_ok example_spread_error
           (mkRequest (JObj []) (JStr (js "Hi")) JUndef JUndef JUndef)) =
    [ECall 0 Launch None; ECall 1 NewPage None;
     ERespond 500 (ErrBody (js "object is not iterable"));
     ECall 2 Close None].
Proof.
  apply (share_story_non_iterable env_ok example_spread_error
           (mkRequest (JObj []) (JStr (js "Hi")) JUndef JUndef JUndef));
    [reflexivity | reflexivity | reflexivity | discriminate | reflexivity | reflexivity].
Defined.

Ltac split_validate :=
  unfold run_validate, validate, st0, try_finally, try_catch, evaluate;
  unfold bind, call, respond, emit, early_return, throw, ret, set_browser, get_browser;
  repeat (cbn -[js jsstr_eqb app find_name run_page_fn];
    match goal with
    | |- context [reject ?e ?n ?o] => destruct (reject e n o) eqn:?
    | |- context [find_name ?l ?nm ?st] =>
        let E := fresh "E" in
        destruct (find_name_state l nm st) as [? ?];
        destruct (find_name l nm st) as [[?| ? |] ?] eqn:E;
        simpl in *; subst; try congruence
    | |- context [if ?b then _ else _] => destruct b eqn:?
    end).

(** X7: [/api/validate] only reads the page: it never clicks or types, and
    it loads the page at most once. *)
Theorem validate_read_only env req :
  calls_none posts (trace (run_validate env req)) = true /\
  (List.length (filter is_goto (trace (run_validate env req))) <= 1)%nat.
Proof.
  split_validate.
  all: cbn -[js jsstr_eqb find_name run_page_fn].
  all: split; [reflexivity | auto].
Qed.

(** X8: when [/api/validate] answers with a session report, the status is
    200, [user] is one of the two texts the page script can return
    (["Your profile"], the aria-label it selects by, or
    ["Facebook User"]), so never the account's name, and [userId] is the
    [value] of the first cookie named [c_user]. *)
Theorem validate_success_body env req st m user uid :
  response_of (trace (run_validate env req)) = Some (st, ValidBody m user uid) ->
  st = 200 /\ m = js "Session is valid and ready for automation" /\
  (user = JStr (js "Your profile") \/ user = JStr (js "Facebook User")) /\
  exists l c, appstate req = JArr l /\ fst (find_name l (js "c_user") st0) = Normal c /\
    truthy c = true /\ uid = get_prop c (js "value").
Proof.
  intros H. revert H.
  unfold run_validate, validate. destruct (appstate req) eqn:Ea.
  all: split_validate.
  all: try (exfalso; rewrite ?orb_true_r in *; discriminate).
  all: cbn -[js jsstr_eqb app find_name run_page_fn].
  all: intros H; cbn -[js jsstr_eqb find_name run_page_fn] in H; try discriminate H.
  all: injection H as <- <- <- <-.
  all: split; [reflexivity|]; split; [reflexivity|].
  all: split; [unfold run_page_fn; destruct (dom _ _ _); auto|].
  all: do 2 eexists; split; [reflexivity|]; split; [rewrite E; reflexivity|].
  all: apply orb_false_iff in Heqb; destruct Heqb as [Hc _];
       apply negb_false_iff in Hc; auto.
Qed.

Lemma validate_success_body_witness :
  exists st m user uid,
    response_of (trace (run_validate env_ok (mkRequest good_cookies JUndef JUndef JUndef JUndef)))
      = Some (st, ValidBody m user uid) /\
    st = 200 /\ m = js "Session is valid and ready for automation" /\
    (user = JStr (js "Your profile") \/ user = JStr (js "Facebook User")).
Proof.
  lazymatch eval vm_compute in
    (response_of (trace (run_validate env_ok (mkRequest good_cookies JUndef JUndef JUndef JUndef))))
  with
  | Some (?st, ValidBody ?m ?user ?uid) =>
      assert (Hr : response_of (trace (run_validate env_ok
                     (mkRequest good_cookies JUndef JUndef JUndef JUndef)))
                   = Some (st, ValidBody m user uid)) by (vm_compute; reflexivity);
      destruct (validate_success_body env_ok (mkRequest good_cookies JUndef JUndef JUndef JUndef)
                  st m user uid Hr) as (H1 & H2 & H3 & _);
      exists st, m, user, uid; split; [exact Hr|]; split; [exact H1|]; split; [exact H2 | exact H3]
  end.
Defined.

(** X9: with a cookie array of non-null entries holding both [c_user] and
    [xs], and browser calls that resolve, [/api/validate] answers 200 when
    the loaded page shows one of the aria-labels ["Create a post"],
    ["Messenger"] or ["Notifications"], and 401 ["Invalid session - unable to
    login with provided cookies"] when it shows none of them. *)
Theorem validate_landmarks env req l :
  appstate req = JArr l -> forallb nonnull l = true ->
  has_cookie l (js "c_user") = true -> has_cookie l (js "xs") = true ->
  (forall k o, (k < 8)%nat -> reject env k o = None) ->
  (dom env 6 (js "Create a post") || dom env 6 (js "Messenger") || dom env 6 (js "Notifications")
     = true ->
   exists b, response_of (trace (run_validate env req)) = Some (200, b)) /\
  (dom env 6 (js "Create a post") || dom env 6 (js "Messenger") || dom env 6 (js "Notifications")
     = false ->
   response_of (trace (run_validate env req)) =
     Some (401, ErrBody (js "Invalid session - unable to login with provided cookies"))).
Proof.
  intros Happ Hn Hc Hx Hrej.
  destruct (find_name_nonnull l (js "c_user") st0 Hn) as (cu & Hcu & Tcu).
  destruct (find_name_nonnull l (js "xs") st0 Hn) as (x & Hxs & Tx).
  rewrite Hc in Tcu. rewrite Hx in Tx.
  unfold run_validate, validate, try_finally, try_catch, evaluate.
  unfold bind, call, respond, emit, early_return, throw, ret, set_browser, get_browser.
  rewrite Happ. cbn [truthy is_array negb orb elements]. rewrite Hcu, Hxs.
  cbn [fst snd]. rewrite Tcu, Tx. cbn -[js run_page_fn].
  rewrite (Hrej 0%nat), (Hrej 1%nat), (Hrej 2%nat), (Hrej 3%nat), (Hrej 4%nat), (Hrej 5%nat),
    (Hrej 6%nat) by lia.
  cbn -[js].
  split; intros Hd; rewrite Hd; cbn -[js].
  - rewrite (Hrej 7%nat) by lia. cbn -[js].
    destruct (reject env 8 Close); eexists; reflexivity.
  - destruct (reject env 7 Close); reflexivity.
Qed.

Lemma validate_landmarks_witness :
  (true = true ->
   exists b, response_of (trace (run_validate env_ok (mkRequest good_cookies JUndef JUndef JUndef JUndef)))
             = Some (200, b)) /\
  (true = false ->
   response_of (trace (run_validate env_ok (mkRequest good_cookies JUndef JUndef JUndef JUndef))) =
     Some (401, ErrBody (js "Invalid session - unable to login with provided cookies"))).
Proof.
  exact (validate_landmarks env_ok (mkRequest good_cookies JUndef JUndef JUndef JUndef)
           [cookie "c_user" "100012345"; cookie "xs" "abc123"]
           eq_refl eq_refl eq_refl eq_refl (fun k o _ => eq_refl)).
Defined.

(** X10: a cookie field that is not an array (missing, [null], a string, an
    object, ...) is refused before any browser call: [/api/validate]
    answers 400 ["Invalid AppState format. Must be an array of cookies."]
    and [/api/share] answers 400 ["Invalid AppState format"]. *)
Theorem appstate_not_array env req :
  is_array (appstate req) = false ->
  trace (run_validate env req) =
    [ERespond 400 (ErrBody (js "Invalid AppState format. Must be an array of cookies."))] /\
  trace (run_share env req) = [ERespond 400 (ErrBody (js "Invalid AppState format"))].
Proof.
  intros H. unfold run_validate, validate, run_share, share.
  rewrite H, orb_true_r. split; reflexivity.
Qed.

Lemma appstate_not_array_witness :
  trace (run_validate env_ok (mkRequest (JObj []) (JStr (js "Hi")) JUndef JUndef JUndef)) =
    [ERespond 400 (ErrBody (js "Invalid AppState format. Must be an array of cookies."))] /\
  trace (run_share env_ok (mkRequest (JObj []) (JStr (js "Hi")) JUndef JUndef JUndef)) =
    [ERespond 400 (ErrBody (js "Invalid AppState format"))].
Proof. apply appstate_not_array. reflexivity. Defined.

(** X11: on [/api/share], a truthy message that is not a string (a number,
    [true], an array, an object) makes [message.trim()] throw before the
    browser is launched: the answer is 500
    ["Sharing failed: message.trim is not a function"] and nothing else
    happens. *)
Theorem share_message_not_string env req l :
  appstate req = JArr l -> truthy (message req) = true -> (forall s, message req <> JStr s) ->
  trace (run_share env req) =
    [ERespond 500 (ErrBody (js "Sharing failed: message.trim is not a function"))].
Proof.
  intros Ha Ht Hs. unfold run_share, share. rewrite Ha, Ht.
  unfold try_finally, try_catch, bind, trim_method.
  destruct (message req) eqn:E; try discriminate; try (exfalso; eapply Hs; reflexivity);
    reflexivity.
Qed.

Lemma share_message_not_string_witness :
  trace (run_share env_ok (mkRequest good_cookies (JNum (js "42")) JUndef JUndef JUndef)) =
    [ERespond 500 (ErrBody (js "Sharing failed: message.trim is not a function"))].
Proof.
  apply (share_message_not_string env_ok _ [cookie "c_user" "100012345"; cookie "xs" "abc123"]);
    [reflexivity | reflexivity | discriminate].
Defined.

Lemma link_given_not_string link s :
  truthy link = true -> (forall t, link <> JStr t) ->
  link_given link s = (Throw (not_a_function "link.trim"), s).
Proof.
  intros Ht Hs. unfold link_given, trim_method, bind, throw. rewrite Ht.
  destruct link; try discriminate; try (exfalso; eapply Hs; reflexivity); reflexivity.
Qed.

Lemma calls_none_app p a b : calls_none p (a ++ b) = calls_none p a && calls_none p b.
Proof. apply forallb_app. Qed.

Lemma attempt_try_link_not_string env message link sc sd i s :
  truthy link = true -> (forall t, link <> JStr t) ->
  let '(c, s1) := attempt_try env message link sc sd i s in
  (exists m, c = Throw m) /\ results s1 = results s /\
  exists tr, trace s1 = trace s ++ tr /\ calls_none submits tr = true.
Proof.
  intros Ht Hs.
  pose proof (fun st => link_given_not_string link st Ht Hs) as Hlg.
  unfold attempt_try, evaluate, call, bind, sleep, emit, throw, ret.
  split_world.
  all: try (match goal with H : link_given _ _ = _ |- _ => rewrite Hlg in H; discriminate H end).
  all: cbn -[js jsstr_eqb link_given nat_to_jsstr app js_lt].
  all: split; [eexists; reflexivity|]; split; [reflexivity|].
  all: eexists; split; [rewrite <- ?app_assoc; reflexivity|].
  all: reflexivity.
Qed.

Lemma attempt_link_not_string env message link sc sd i s :
  truthy link = true -> (forall t, link <> JStr t) ->
  let '(c, s1) := attempt env message link sc sd i s in
  c = Normal tt /\
  exists r tr, results s1 = results s ++ [r] /\ rec_success r = false /\
    trace s1 = trace s ++ tr /\ calls_none submits tr = true.
Proof.
  intros Ht Hs.
  pose proof (attempt_try_link_not_string env message link sc sd i s Ht Hs) as H.
  unfold attempt, try_catch.
  destruct (attempt_try env message link sc sd i s) as [c s1].
  destruct H as ((m & ->) & Hres & tr & Htr & Hn).
  rewrite attempt_catch_eq. cbn [ncalls trace results browser].
  split; [reflexivity|].
  eexists _, (tr ++ _). split; [rewrite Hres; reflexivity|]. split; [reflexivity|].
  rewrite Htr, <- app_assoc. split; [reflexivity|].
  rewrite calls_none_app, Hn. destruct (js_lt _ _); reflexivity.
Qed.

Lemma share_loop_link_not_string env message link sc sd n i s :
  truthy link = true -> (forall t, link <> JStr t) ->
  let '(c, s1) := share_loop env message link sc sd n i s in
  exists rs tr, results s1 = results s ++ rs /\ forallb (fun r => negb (rec_success r)) rs = true /\
    trace s1 = trace s ++ tr /\ calls_none submits tr = true.
Proof.
  intros Ht Hs. revert i s. induction n as [|n IH]; intros i s.
  - exists [], []. rewrite !app_nil_r. auto.
  - cbn [share_loop]. unfold bind.
    pose proof (attempt_link_not_string env message link sc sd i s Ht Hs) as H1.
    destruct (attempt env message link sc sd i s) as [c1 s1].
    destruct H1 as (-> & r & tr1 & Hr1 & Hs1 & Ht1 & Hn1).
    pose proof (IH (S i) s1) as H2.
    destruct (share_loop env message link sc sd n (S i) s1) as [c2 s2].
    destruct H2 as (rs & tr2 & Hr2 & Hs2 & Ht2 & Hn2).
    exists (r :: rs), (tr1 ++ tr2).
    rewrite Hr2, Hr1, Ht2, Ht1, <- !app_assoc. cbn [forallb]. rewrite Hs1, Hs2, calls_none_app, Hn1, Hn2.
    auto.
Qed.

Lemma response_of_quiet_app a b :
  forallb quiet a = true -> response_of (a ++ b) = response_of b.
Proof.
  induction a as [|e a IH]; [reflexivity|].
  simpl. intros H. apply andb_prop in H as [He Hp].
  destruct e; simpl in He; try discriminate; apply IH; exact Hp.
Qed.

(** The log of an [/api/share] report is the [results] the attempt loop
    leaves, run from a state with an empty log. *)
Lemma share_results_from_loop env req st rs sm :
  response_of (trace (run_share env req)) = Some (st, ShareBody rs sm) ->
  exists s sc sd, shareCount req = Some sc /\ shareDelay req = Some sd /\ results s = [] /\
    rs = results (snd (share_loop env (message req) (link req) sc sd (trip_count sc) 0 s)).
Proof.
  unfold run_share, share, st0, try_finally, try_catch, trim_method, or_throw.
  unfold bind, call, respond, emit, early_return, throw, ret, set_browser, get_browser,
    get_results.
  repeat (cbn -[js jsstr_eqb nat_to_jsstr app js_lt share_loop shareCount shareDelay
               success_rate trip_count filter List.length js_trim];
    match goal with
    | |- context [reject ?e ?n ?o] => destruct (reject e n o) eqn:?
    | |- context [share_loop ?e ?m ?l ?sc ?sd ?n ?i ?st] =>
        let H := fresh "HL" in
        pose proof (share_loop_spec e m l sc sd n i st) as H;
        destruct (share_loop e m l sc sd n i st) as [? ?] eqn:?;
        destruct H as (-> & _ & _ & ? & ? & _ & _ & ?Ht & ?Hp & _)
    | |- context [if ?b then _ else _] => destruct b eqn:?
    | |- context [match ?x with [] => _ | _ :: _ => _ end] => destruct x eqn:?
    | |- context [match message ?r with _ => _ end] => destruct (message r) eqn:?
    | |- context [match shareCount ?r with _ => _ end] => destruct (shareCount r) eqn:?
    | |- context [match shareDelay ?r with _ => _ end] => destruct (shareDelay r) eqn:?
    end).
  all: cbn -[js jsstr_eqb nat_to_jsstr app js_lt share_loop shareCount shareDelay
               success_rate trip_count filter List.length js_trim].
  all: intros H; try (cbn in H; discriminate H).
  all: match goal with
       | E : share_loop _ _ _ _ _ _ _ ?s0 = (_, ?s1), Ht : trace ?s1 = _ ++ ?tr,
         Hp : forallb page_event ?tr = true |- _ =>
           exists s0; do 2 eexists; split; [reflexivity|]; split; [reflexivity|];
           split; [reflexivity|]; rewrite E; cbn [snd];
           rewrite Ht, <- !app_assoc in H;
           rewrite response_of_quiet_app in H by reflexivity;
           rewrite response_of_quiet_app in H by exact (proj1 (page_events_quiet tr Hp));
           cbn in H; injection H as _ <- _; reflexivity
       end.
Qed.

(** X12: on [/api/share], a truthy [link] that is not a string (a number,
    [true], an array, an object) makes [link.trim()] throw inside every
    attempt that gets past typing the message: the [Post] button is never
    clicked, every record of the log is a Failure and the summary counts no
    success. *)
Theorem share_link_not_string env req :
  truthy (link req) = true -> (forall t, link req <> JStr t) ->
  calls_none submits (trace (run_share env req)) = true /\
  (forall st rs sm, response_of (trace (run_share env req)) = Some (st, ShareBody rs sm) ->
     forallb (fun r => negb (rec_success r)) rs = true /\ successful sm = 0%nat).
Proof.
  intros Ht Hs. split.
  - unfold run_share, share, st0, try_finally, try_catch, trim_method, or_throw.
    unfold bind, call, respond, emit, early_return, throw, ret, set_browser, get_browser,
      get_results.
    repeat (cbn -[js jsstr_eqb nat_to_jsstr app js_lt share_loop shareCount shareDelay
                 success_rate trip_count filter List.length js_trim submits calls_none];
      match goal with
      | |- context [reject ?e ?n ?o] => destruct (reject e n o) eqn:?
      | |- context [share_loop ?e ?m ?l ?sc ?sd ?n ?i ?st] =>
          let H := fresh "HL" in
          let H' := fresh "HS" in
          pose proof (share_loop_link_not_string e m l sc sd n i st Ht Hs) as H;
          pose proof (share_loop_spec e m l sc sd n i st) as H';
          destruct (share_loop e m l sc sd n i st) as [? ?];
          destruct H' as (-> & _);
          destruct H as (? & ? & _ & _ & ?Htr & ?Hn)
      | |- context [if ?b then _ else _] => destruct b eqn:?
      | |- context [match ?x with [] => _ | _ :: _ => _ end] => destruct x eqn:?
      | |- context [match message ?r with _ => _ end] => destruct (message r) eqn:?
      | |- context [match shareCount ?r with _ => _ end] => destruct (shareCount r) eqn:?
      | |- context [match shareDelay ?r with _ => _ end] => destruct (shareDelay r) eqn:?
      end).
    all: cbn -[js jsstr_eqb nat_to_jsstr app js_lt share_loop shareCount shareDelay
                 success_rate trip_count filter List.length js_trim submits calls_none].
    all: try match goal with Htr : trace ?s1 = _ |- _ => rewrite Htr end.
    all: rewrite ?calls_none_app, ?Hn; reflexivity.
  - intros st rs sm Hr.
    destruct (share_results_from_loop env req st rs sm Hr) as (s & sc & sd & _ & _ & Hs0 & ->).
    pose proof (share_loop_link_not_string env (message req) (link req) sc sd
                  (trip_count sc) 0 s Ht Hs) as H.
    destruct (share_loop _ _ _ _ _ _ _ s) as [c s1].
    destruct H as (rs' & tr & Hr1 & Hf & _). cbn [snd]. rewrite Hr1, Hs0. cbn [app].
    split; [exact Hf|].
    destruct (share_response env req) as (st' & b & Hr' & Hb).
    rewrite Hr in Hr'. injection Hr' as <- <-.
    destruct Hb as (_ & _ & _ & Hsucc & _).
    rewrite Hsucc, Hr1, Hs0. cbn [app]. clear - Hf.
    induction rs' as [|r rs IH]; [reflexivity|].
    cbn in Hf |- *. destruct (rec_success r); [discriminate|]. apply IH, Hf.
Qed.

Lemma share_link_not_string_witness :
  calls_none submits (trace (run_share env_ok (mkRequest good_cookies (JStr (js "Hello"))
                                                 (JNum (js "7")) (JNum (js "2")) JUndef))) = true /\
  (forall st rs sm,
     response_of (trace (run_share env_ok (mkRequest good_cookies (JStr (js "Hello"))
                                             (JNum (js "7")) (JNum (js "2")) JUndef)))
       = Some (st, ShareBody rs sm) ->
     forallb (fun r => negb (rec_success r)) rs = true /\ successful sm = 0%nat).
Proof. apply share_link_not_string; [reflexivity | discriminate]. Defined.

Lemma share_total_range env req st rs sm c :
  response_of (trace (run_share env req)) = Some (st, ShareBody rs sm) ->
  total sm = Int c -> 1 <= c <= 10.
Proof.
  intros Hresp Ht.
  destruct (share_response env req) as (st' & b & Hr & Hb).
  rewrite Hresp in Hr. injection Hr as <- <-.
  destruct Hb as (_ & Htot & _).
  rewrite Ht in Htot.
  destruct (clamp_cases (default (count req) (JNum (js "1"))) 1 10 (Int c) ltac:(lia) Htot)
    as [Hn|(c' & Hc' & Hrange)]; [discriminate|].
  injection Hc' as <-. exact Hrange.
Qed.

(** X13: when the run's [total] is a number, [successRate] is an integer
    between 0 and 100; it is 100 exactly when every attempt succeeded and 0
    exactly when none did. *)
Theorem share_rate_bounds env req st rs sm c :
  response_of (trace (run_share env req)) = Some (st, ShareBody rs sm) ->
  total sm = Int c ->
  exists r, successRate sm = Int r /\ 0 <= r <= 100 /\
    (r = 100 <-> successful sm = Z.to_nat c) /\ (r = 0 <-> successful sm = 0%nat).
Proof.
  intros Hresp Ht.
  pose proof (share_total_range env req st rs sm c Hresp Ht) as Hc.
  destruct (share_summary_numeric env req st rs sm c Hresp Ht) as [Hsf ->].
  eexists. split; [reflexivity|].
  assert (Hs : Z.of_nat (successful sm) <= c) by lia.
  assert (Hs0 : 0 <= Z.of_nat (successful sm)) by lia.
  set (s := Z.of_nat (successful sm)) in *.
  assert (Hlo : 0 <= (200 * s + c) / (2 * c)) by (apply Z.div_pos; lia).
  assert (Hhi : (200 * s + c) / (2 * c) < 101) by (apply Z.div_lt_upper_bound; lia).
  split; [lia|]. split.
  - split.
    + intros H100. destruct (Z.eq_dec s c) as [E|E]; [subst s; lia|].
      assert ((200 * s + c) / (2 * c) < 100) by (apply Z.div_lt_upper_bound; lia). lia.
    + intros Hsc. assert (E : s = c) by (subst s; lia). rewrite E in Hhi |- *.
      assert (100 <= (200 * c + c) / (2 * c)) by (apply Z.div_le_lower_bound; lia). lia.
  - split.
    + intros H0. destruct (Z.eq_dec s 0) as [E|E]; [subst s; lia|].
      assert (1 <= (200 * s + c) / (2 * c)) by (apply Z.div_le_lower_bound; lia). lia.
    + intros Hz. assert (E : s = 0) by (subst s; lia). rewrite E.
      apply Z.div_small. lia.
Qed.

Lemma share_rate_bounds_witness :
  exists st rs sm,
    response_of (trace (run_share env_ok req_three)) = Some (st, ShareBody rs sm) /\
    total sm = Int 3 /\
    exists r, successRate sm = Int r /\ 0 <= r <= 100 /\
      (r = 100 <-> successful sm = Z.to_nat 3) /\ (r = 0 <-> successful sm = 0%nat).
Proof.
  lazymatch eval vm_compute in (response_of (trace (run_share env_ok req_three))) with
  | Some (?st, ShareBody ?rs ?sm) =>
      exists st, rs, sm;
      split; [vm_compute; reflexivity|]; split; [reflexivity|];
      apply (share_rate_bounds env_ok req_three st rs sm 3); vm_compute; reflexivity
  end.
Defined.

Lemma take_digits_uint d a acc len :
  a = Z.of_nat acc ->
  take_digits 10 (uint_digits d) a len =
  (Z.of_nat (Nat.of_uint_acc d acc), (len + List.length (uint_digits d))%nat).
Proof.
  revert a acc len.
  induction d as [|d IH|d IH|d IH|d IH|d IH|d IH|d IH|d IH|d IH|d IH]; intros a acc len Ha;
    [cbn; subst; f_equal; lia|..];
    cbn [uint_digits take_digits Nat.of_uint_acc List.length];
    unfold digit_value; cbn -[Nat.of_uint_acc Nat.tail_mul];
    (erewrite IH; [f_equal; lia | rewrite Nat.tail_mul_spec; lia]).
Qed.

Ltac parse_digits_cases :=
  intros d Hd; destruct d as [|d|d|d|d|d|d|d|d|d|d]; [congruence|..];
  destruct d as [|d|d|d|d|d|d|d|d|d|d];
  unfold parse_int_string, Nat.of_uint; cbn -[num_of_Z Z.mul];
  try (match goal with |- context [Nat.of_uint_acc ?d ?acc] =>
         rewrite (take_digits_uint d _ acc) by (cbn; lia) end;
       cbn -[num_of_Z Z.mul]);
  f_equal; lia.

Lemma parse_uint_digits_pos :
  forall d, d <> Decimal.Nil ->
  parse_int_string (uint_digits d) = num_of_Z (Z.of_nat (Nat.of_uint d)).
Proof. parse_digits_cases. Qed.

Lemma parse_uint_digits_neg :
  forall d, d <> Decimal.Nil ->
  parse_int_string (45%N :: uint_digits d) = num_of_Z (- Z.of_nat (Nat.of_uint d)).
Proof. parse_digits_cases. Qed.

Lemma to_uint_not_nil n : Nat.to_uint n <> Decimal.Nil.
Proof.
  intros E. pose proof (DecimalNat.Unsigned.of_to n) as H.
  rewrite E in H. cbn in H. subst n. discriminate E.
Qed.

(** [parseInt] reads back the decimal text of any integer. *)
Lemma parse_int_repr z : parse_int_string (int_repr z) = num_of_Z z.
Proof.
  unfold int_repr, nat_to_jsstr. destruct (z <? 0) eqn:Hz.
  - rewrite parse_uint_digits_neg by apply to_uint_not_nil.
    rewrite DecimalNat.Unsigned.of_to. f_equal. apply Z.ltb_lt in Hz. lia.
  - rewrite parse_uint_digits_pos by apply to_uint_not_nil.
    rewrite DecimalNat.Unsigned.of_to. f_equal. apply Z.ltb_ge in Hz. lia.
Qed.

Lemma clamp_int_repr v k lo hi :
  lo <= hi -> - (2 ^ 1024 - 2 ^ 970) < lo -> hi < 2 ^ 1024 - 2 ^ 970 ->
  to_string v = Some (int_repr k) ->
  clamp v lo hi = Some (Int (Z.min (Z.max k lo) hi)).
Proof.
  intros Hle Hlo Hhi Hv. unfold clamp, parseInt. rewrite Hv. cbn [option_map].
  rewrite parse_int_repr. f_equal. unfold num_of_Z.
  destruct (2 ^ 1024 - 2 ^ 970 <=? k) eqn:E1; [apply Z.leb_le in E1|apply Z.leb_gt in E1].
  - cbn [js_max js_min]. f_equal. lia.
  - destruct (k <=? - (2 ^ 1024 - 2 ^ 970)) eqn:E2; [apply Z.leb_le in E2|].
    + cbn [js_max js_min]. f_equal. lia.
    + reflexivity.
Qed.


(** X14: a [count] given as the decimal text of an integer [k] (a string, or
    a JSON number printed that way) is read back exactly by [parseInt] and
    clamped to [1, 10] (server.js line 160); a completed run then reports
    that clamped count as [total] and makes that many attempts.  Likewise a
    [delay] given as the text of [d] is clamped to [5, 60] (line 161); each
    holds whatever the other field is. *)
Theorem share_integer_params env req :
  (forall k, int_text (count req) k ->
     shareCount req = Some (Int (Z.min (Z.max k 1) 10)) /\
     forall st rs sm,
       response_of (trace (run_share env req)) = Some (st, ShareBody rs sm) ->
       total sm = Int (Z.min (Z.max k 1) 10) /\
       List.length rs = Z.to_nat (Z.min (Z.max k 1) 10)) /\
  (forall d, int_text (delay req) d ->
     shareDelay req = Some (Int (Z.min (Z.max d 5) 60))).
Proof.
  split.
  - intros k Hk.
    assert (Hc : shareCount req = Some (Int (Z.min (Z.max k 1) 10))).
    { unfold shareCount. apply clamp_int_repr; try lia.
      destruct Hk as [-> | (-> & _)]; reflexivity. }
    split; [exact Hc|].
    intros st rs sm Hresp.
    destruct (share_response env req) as (st' & b & Hr & Hb).
    rewrite Hresp in Hr. injection Hr as <- <-.
    destruct Hb as (_ & Htot & Hmap & _).
    rewrite Hc in Htot. injection Htot as Htot. rewrite <- Htot in Hmap.
    split; [symmetry; exact Htot|].
    rewrite <- (length_map rec_attempt), Hmap, length_seq. reflexivity.
  - intros d Hd. unfold shareDelay. apply clamp_int_repr; try lia.
    destruct Hd as [-> | (-> & _)]; reflexivity.
Qed.

Lemma share_integer_params_witness :
  int_text (count req_three) 3 /\ int_text (delay req_three) 5 /\
  shareCount req_three = Some (Int 3) /\ shareDelay req_three = Some (Int 5).
Proof.
  assert (Hk : int_text (count req_three) 3) by (right; split; [vm_compute; reflexivity | lia]).
  assert (Hd : int_text (delay req_three) 5) by (right; split; [vm_compute; reflexivity | lia]).
  destruct (share_integer_params env_ok req_three) as (Hc & Hdl).
  split; [exact Hk|]. split; [exact Hd|].
  split; [exact (proj1 (Hc 3 Hk)) | exact (Hdl 5 Hd)].
Defined.

Ltac ends_with_sleep :=
  match goal with |- exists tr0, ?t = tr0 ++ _ => exists (removelast t); reflexivity end.

Lemma attempt_try_shape env message link sc sd i s :
  let '(c, s') := attempt_try env message link sc sd i s in
  exists e tr, trace s' = trace s ++ ECall (ncalls s) (Goto facebook_url) e :: tr /\
    filter is_goto tr = [] /\
    (c = Normal tt -> js_lt (Int (Z.of_nat i)) (js_sub_int sc 1) = true ->
     exists tr0, tr = tr0 ++ [ESleep (js_mul_int sd 1000)]).
Proof.
  destruct s as [n0 tr0 rs0 b0].
  unfold attempt_try, between_posts, evaluate.
  unfold bind, call, sleep, emit, push, now, throw, ret.
  split_world.
  all: simpl.
  all: do 2 eexists; split; [rewrite <- ?app_assoc; reflexivity|].
  all: split; [reflexivity|].
  all: intros Hc Hlt; try discriminate Hc; try discriminate Hlt.
  all: ends_with_sleep.
Qed.

Lemma attempt_shape env message link sc sd i s :
  let '(c, s') := attempt env message link sc sd i s in
  exists e tr, trace s' = trace s ++ ECall (ncalls s) (Goto facebook_url) e :: tr /\
    filter is_goto tr = [] /\
    (js_lt (Int (Z.of_nat i)) (js_sub_int sc 1) = true ->
     exists tr0, tr = tr0 ++ [ESleep (js_mul_int sd 1000)]).
Proof.
  unfold attempt, try_catch.
  pose proof (attempt_try_shape env message link sc sd i s) as H.
  pose proof (attempt_try_spec env message link sc sd i s) as H'.
  destruct (attempt_try env message link sc sd i s) as [[u|m|] s1] eqn:E;
    destruct H as (e & tr & Htr & Hg & Hl).
  - destruct u. exists e, tr. auto.
  - rewrite attempt_catch_eq; cbn [trace]. rewrite Htr.
    exists e, (tr ++ if js_lt (Int (Z.of_nat i)) (js_sub_int sc 1)
                    then [ESleep (js_mul_int sd 1000)] else []).
    split; [rewrite <- app_assoc; reflexivity|].
    split; [rewrite filter_app, Hg; destruct (js_lt _ _); reflexivity|].
    intros Hlt; rewrite Hlt; eauto.
  - destruct H' as (_ & _ & ? & _ & _ & _ & _ & _ & []).
Qed.

Lemma filter_goto_nil_cons tr1 k u e l :
  filter is_goto (tr1 ++ ECall k (Goto u) e :: l) <> [].
Proof.
  rewrite filter_app. cbn [filter is_goto]. apply not_eq_sym, app_cons_not_nil.
Qed.

Lemma delay_before_goto_nil d : delay_before_goto d [].
Proof. intros tr1 k u e tr2 H. destruct tr1; discriminate H. Qed.

Lemma delay_before_goto_cons d a tr :
  is_goto a = false -> delay_before_goto d tr -> delay_before_goto d (a :: tr).
Proof.
  intros Ha H tr1 k u e tr2 E Hg.
  destruct tr1 as [|b tr1]; [injection E as -> _; discriminate Ha|].
  injection E as <- E. cbn [filter] in Hg. rewrite Ha in Hg.
  destruct (H tr1 k u e tr2 E Hg) as (tr0 & ->). exists (a :: tr0). reflexivity.
Qed.

Lemma delay_before_goto_app_quiet d tr tr' :
  delay_before_goto d tr -> filter is_goto tr' = [] -> delay_before_goto d (tr ++ tr').
Proof.
  intros H Hq tr1 k u e tr2 E Hg.
  apply app_eq_app in E as (l & [(E1 & E2) | (E1 & E2)]).
  - destruct l as [|x l].
    + cbn in E2. subst tr'. cbn in Hq. discriminate Hq.
    + injection E2 as <- E2. apply (H tr1 k u e l); [exact E1 | exact Hg].
  - subst tr'. exfalso. apply (filter_goto_nil_cons l k u e tr2). exact Hq.
Qed.

(** One attempt, then the rest of the loop. *)
Lemma delay_before_goto_step d k0 u0 e0 rest trB :
  filter is_goto rest = [] -> delay_before_goto d trB ->
  (trB = [] \/ exists k u e t, trB = ECall k (Goto u) e :: t) ->
  (trB <> [] -> exists tr0, rest = tr0 ++ [ESleep d]) ->
  delay_before_goto d (ECall k0 (Goto u0) e0 :: rest ++ trB).
Proof.
  intros Hq HB Hhead Hlast tr1 k u e tr2 E Hg.
  destruct tr1 as [|y tr1]; [contradiction|].
  injection E as <- E.
  apply app_eq_app in E as (l & [(E1 & E2) | (E1 & E2)]).
  - destruct l as [|x l].
    + rewrite app_nil_r in E1. subst rest. cbn in E2.
      destruct Hlast as (tr0 & Htr0); [rewrite <- E2; discriminate|].
      rewrite Htr0. exists (ECall k0 (Goto u0) e0 :: tr0). reflexivity.
    + injection E2 as <- _. subst rest.
      exfalso. apply (filter_goto_nil_cons tr1 k u e l). exact Hq.
  - subst tr1.
    destruct (filter is_goto l) as [|g gs] eqn:Hl.
    + destruct l as [|z l].
      * rewrite app_nil_r. cbn in E2.
        destruct Hlast as (tr0 & Htr0); [rewrite E2; discriminate|].
        rewrite Htr0. exists (ECall k0 (Goto u0) e0 :: tr0). reflexivity.
      * exfalso. destruct Hhead as [-> | (k' & u' & e' & t & ->)]; [discriminate E2|].
        injection E2 as <- _. discriminate Hl.
    + destruct (HB l k u e tr2 E2 ltac:(rewrite Hl; discriminate)) as (tr0 & ->).
      exists (ECall k0 (Goto u0) e0 :: rest ++ tr0).
      cbn [app]. rewrite <- app_assoc. reflexivity.
Qed.

Lemma share_loop_shape env message link sc sd n i s :
  (forall j, (i <= j)%nat -> (S j < i + n)%nat ->
     js_lt (Int (Z.of_nat j)) (js_sub_int sc 1) = true) ->
  let '(c, s') := share_loop env message link sc sd n i s in
  exists tr, trace s' = trace s ++ tr /\ delay_before_goto (js_mul_int sd 1000) tr /\
    (tr = [] \/ exists k u e t, tr = ECall k (Goto u) e :: t) /\ (n = 0%nat -> tr = []).
Proof.
  revert i s; induction n as [|n IH]; intros i s Hlt.
  - exists []. rewrite app_nil_r. split; [reflexivity|].
    split; [apply delay_before_goto_nil|]. auto.
  - cbn [share_loop]. unfold bind.
    pose proof (attempt_shape env message link sc sd i s) as H1.
    pose proof (attempt_spec env message link sc sd i s) as H1'.
    destruct (attempt env message link sc sd i s) as [c1 s1].
    destruct H1' as (-> & _). destruct H1 as (e & rest & Htr1 & Hg & Hl).
    assert (Hlt' : forall j, (S i <= j)%nat -> (S j < S i + n)%nat ->
                   js_lt (Int (Z.of_nat j)) (js_sub_int sc 1) = true)
      by (intros j Hj1 Hj2; apply Hlt; lia).
    pose proof (IH (S i) s1 Hlt') as H2.
    destruct (share_loop env message link sc sd n (S i) s1) as [c2 s2].
    destruct H2 as (trB & HtrB & Hgap & Hhead & Hnil).
    exists (ECall (ncalls s) (Goto facebook_url) e :: rest ++ trB).
    split; [rewrite HtrB, Htr1, <- app_assoc; reflexivity|].
    split.
    + apply delay_before_goto_step; auto.
      intros Hne. apply Hl, Hlt; [lia|].
      destruct n; [contradiction (Hne (Hnil eq_refl))|lia].
    + split; [right; eauto|discriminate].
Qed.

Lemma trip_count_lt sc j :
  (S j < trip_count sc)%nat -> js_lt (Int (Z.of_nat j)) (js_sub_int sc 1) = true.
Proof.
  destruct sc as [| | |c]; cbn; intros H; [lia..|].
  apply Z.ltb_lt. lia.
Qed.

(** X15: on [/api/share], every visit to Facebook after the first comes
    right after a wait of [shareDelay * 1000] ms: the pause between posts
    (lines 250-253) is also taken after a failed attempt (lines 265-267).
    When [parseInt(delay)] throws, Facebook is never visited. *)
Theorem share_delay_between_attempts env req :
  match shareDelay req with
  | Some sd => delay_before_goto (js_mul_int sd 1000) (trace (run_share env req))
  | None => existsb is_goto (trace (run_share env req)) = false
  end.
Proof.
  unfold run_share, share, st0, try_finally, try_catch, trim_method, or_throw.
  unfold bind, call, respond, emit, early_return, throw, ret, set_browser, get_browser,
    get_results.
  repeat (cbn -[js jsstr_eqb nat_to_jsstr app js_lt share_loop shareCount shareDelay
               success_rate trip_count filter List.length js_trim];
    match goal with
    | |- context [reject ?e ?n ?o] => destruct (reject e n o) eqn:?
    | |- context [share_loop ?e ?m ?l ?sc ?sd ?n ?i ?st] =>
        let H := fresh "HL" in let H' := fresh "HS" in
        pose proof (share_loop_spec e m l sc sd n i st) as H;
        assert (H' := share_loop_shape e m l sc sd n i st);
        specialize (H' ltac:(intros ? _ ?; apply trip_count_lt; assumption));
        destruct (share_loop e m l sc sd n i st) as [? ?] eqn:?;
        destruct H as (-> & _);
        destruct H' as (? & ?Ht & ?Hg & _)
    | |- context [if ?b then _ else _] => destruct b eqn:?
    | |- context [match ?x with [] => _ | _ :: _ => _ end] => destruct x eqn:?
    | |- context [match message ?r with _ => _ end] => destruct (message r) eqn:?
    | |- context [match shareCount ?r with _ => _ end] => destruct (shareCount r) eqn:?
    | |- context [match shareDelay ?r with _ => _ end] => destruct (shareDelay r) eqn:?
    end).
  all: cbn -[js jsstr_eqb nat_to_jsstr app js_lt share_loop shareCount shareDelay
               success_rate trip_count filter List.length js_trim].
  all: try reflexivity.
  all: try match goal with Ht : trace _ = _ ++ _ |- _ => rewrite Ht end.
  all: rewrite <- ?app_assoc; cbn [app].
  all: repeat (apply delay_before_goto_cons; [reflexivity|]).
  all: first [ apply delay_before_goto_nil
             | apply delay_before_goto_app_quiet; [assumption | reflexivity] ].
Qed.
